(** * The gitea adapter of go-git-providers: client wrapper and pull requests

    A shallow embedding of the [giteaClientImpl] wrapper (the higher-level
    client over [*gitea.Client]) and of [PullRequestClient], with the
    properties of pagination, error translation, validation and routing
    that the adapter's description states about them. *)

From Stdlib Require Import String ZArith List Bool Lia PeanoNat.
Import ListNotations.
Local Open Scope string_scope.
Local Open Scope list_scope.

Set Implicit Arguments.

(** ** Go values *)

(** A Go pointer to a struct: [None] is [nil]. *)
Definition ptr (A : Type) : Type := option A.

(** A Go slice: [None] is the nil slice, [Some []] an empty non-nil one.
    Both have length 0 and both append like the empty list. *)
Definition slice (A : Type) : Type := option (list A).

Definition len {A} (s : slice A) : nat :=
  match s with
  | None => 0
  | Some l => length l
  end.

Definition elems {A} (s : slice A) : list A :=
  match s with
  | None => []
  | Some l => l
  end.

(** [append(s, t...)] on a non-nil accumulator [s]. *)
Definition append {A} (s : list A) (t : slice A) : list A := s ++ elems t.

(** A call either returns or panics; only [GetTeamPermissions] reads a
    field through a pointer it has not checked. *)
Inductive Outcome (A : Type) : Type :=
| Returned (a : A)
| Panicked (msg : string).

(** ** Errors *)

(** Go [error] values that this package produces or passes on.  A nil
    [error] is [None : option error]. *)
Inductive error : Type :=
| ErrNotFound                                  (* gitprovider.ErrNotFound *)
| ErrDestructiveCallDisallowed                 (* gitprovider.ErrDestructiveCallDisallowed *)
| RemoteError (msg : string)                   (* an error made by the SDK or the transport *)
| ValidationError (msg : string)               (* an object misses a required field *)
| ProviderFailure (inner : error)              (* generic provider failure around [inner] *)
| Errorf (prefix : string) (inner : error).    (* fmt.Errorf(prefix + "%w", inner) *)

Definition error_eqb_head (a b : error) : bool :=
  match a, b with
  | ErrNotFound, ErrNotFound => true
  | ErrDestructiveCallDisallowed, ErrDestructiveCallDisallowed => true
  | RemoteError m, RemoteError n => String.eqb m n
  | ValidationError m, ValidationError n => String.eqb m n
  | _, _ => false
  end.

(** [errors.Unwrap]. *)
Definition Unwrap (e : error) : option error :=
  match e with
  | ProviderFailure inner => Some inner
  | Errorf _ inner => Some inner
  | _ => None
  end.

(** [errors.Is(e, target)] for a sentinel or leaf [target]: walks the
    chain of wrapped errors. *)
Fixpoint errors_Is (e target : error) : bool :=
  error_eqb_head e target ||
  match e with
  | ProviderFailure inner => errors_Is inner target
  | Errorf _ inner => errors_Is inner target
  | _ => false
  end.

(** ** The remote API client (code.gitea.io/sdk/gitea) *)

Module sdk.

(** Response metadata: what the adapter reads of [*gitea.Response]. *)
Record Response : Type := { StatusCode : Z }.

Record ListOptions : Type := { Page : Z; PageSize : Z }.

(** The options structs of the list endpoints embed [ListOptions]; the
    adapter leaves every other field at its zero value, so each is
    modelled by its embedded [ListOptions]. *)
Definition ListOrgsOptions := ListOptions.
Definition ListTeamsOptions := ListOptions.
Definition ListOrgReposOptions := ListOptions.
Definition ListReposOptions := ListOptions.
Definition ListDeployKeysOptions := ListOptions.
Definition ListTeamMembersOptions := ListOptions.
Definition ListPullRequestsOptions := ListOptions.

Record ListCommitOptions : Type :=
  { lc_ListOptions : ListOptions; SHA : string }.

Record Organization : Type := { UserName : string }.
Record User : Type := { Login : string }.
Record AccessMode : Type := { mode : string }.
Record Team : Type := { ID : Z; Name : string; Permission : AccessMode }.
Record Repository : Type := { FullName : string; Owner : ptr User }.
Record DeployKey : Type := { KeyID : Z; Key : string; Title : string; ReadOnly : bool }.
Record Commit : Type := { CommitSHA : string }.
Record PullRequest : Type := { Index : Z; PRTitle : string }.

Record CreateRepoOption : Type := { cr_Name : string }.
Record EditRepoOption : Type := { er_Name : ptr string }.
Record CreateKeyOption : Type :=
  { ck_Title : string; ck_Key : string; ck_ReadOnly : bool }.
Record CreatePullRequestOption : Type :=
  { Head : string; Base : string; pr_Title : string; Body : string }.
Record MergePullRequestOption : Type := { Style : string; Message : string }.

(** What a call with a payload returns: [(payload, response, error)]. *)
Definition Reply (A : Type) : Type := (A * ptr Response * option error)%type.
(** What a call without payload returns: [(response, error)]. *)
Definition Ack : Type := (ptr Response * option error)%type.

(** One remote request, as the transport sees it. *)
Inductive Request : Type :=
| ReqGetOrg (org : string)
| ReqListMyOrgs (opts : ListOrgsOptions)
| ReqListOrgTeams (org : string) (opts : ListTeamsOptions)
| ReqListTeamMembers (id : Z) (opts : ListTeamMembersOptions)
| ReqGetRepo (owner repo : string)
| ReqListOrgRepos (org : string) (opts : ListOrgReposOptions)
| ReqListUserRepos (user : string) (opts : ListReposOptions)
| ReqCreateOrgRepo (org : string) (opt : CreateRepoOption)
| ReqCreateRepo (opt : CreateRepoOption)
| ReqEditRepo (owner repo : string) (opt : EditRepoOption)
| ReqDeleteRepo (owner repo : string)
| ReqListDeployKeys (owner repo : string) (opts : ListDeployKeysOptions)
| ReqListRepoCommits (owner repo : string) (opts : ListCommitOptions)
| ReqCreateDeployKey (owner repo : string) (opt : CreateKeyOption)
| ReqDeleteDeployKey (owner repo : string) (id : Z)
| ReqCheckRepoTeam (org repo team : string)
| ReqAddRepoTeam (org repo team : string)
| ReqRemoveRepoTeam (org repo team : string)
| ReqListRepoPullRequests (owner repo : string) (opts : ListPullRequestsOptions)
| ReqCreatePullRequest (owner repo : string) (opt : CreatePullRequestOption)
| ReqGetPullRequest (owner repo : string) (index : Z)
| ReqMergePullRequest (owner repo : string) (index : Z) (opt : MergePullRequestOption).

(** [*gitea.Client]: one function per endpoint the adapter calls.  The
    remote service is an opaque capability; a value of this record is
    one behaviour of it (the production one or a test double). *)
Record Client : Type := {
  GetOrg : string -> Reply (ptr Organization);
  ListMyOrgs : ListOrgsOptions -> Reply (slice Organization);
  ListOrgTeams : string -> ListTeamsOptions -> Reply (slice Team);
  ListTeamMembers : Z -> ListTeamMembersOptions -> Reply (slice User);
  GetRepo : string -> string -> Reply (ptr Repository);
  ListOrgRepos : string -> ListOrgReposOptions -> Reply (slice Repository);
  ListUserRepos : string -> ListReposOptions -> Reply (slice Repository);
  CreateOrgRepo : string -> CreateRepoOption -> Reply (ptr Repository);
  CreateRepo : CreateRepoOption -> Reply (ptr Repository);
  EditRepo : string -> string -> EditRepoOption -> Reply (ptr Repository);
  DeleteRepo : string -> string -> Ack;
  ListDeployKeys : string -> string -> ListDeployKeysOptions -> Reply (slice DeployKey);
  ListRepoCommits : string -> string -> ListCommitOptions -> Reply (slice Commit);
  CreateDeployKey : string -> string -> CreateKeyOption -> Reply (ptr DeployKey);
  DeleteDeployKey : string -> string -> Z -> Ack;
  CheckRepoTeam : string -> string -> string -> Reply (ptr Team);
  AddRepoTeam : string -> string -> string -> Ack;
  RemoveRepoTeam : string -> string -> string -> Ack;
  ListRepoPullRequests :
    string -> string -> ListPullRequestsOptions -> Reply (slice PullRequest);
  CreatePullRequest :
    string -> string -> CreatePullRequestOption -> Reply (ptr PullRequest);
  GetPullRequest : string -> string -> Z -> Reply (ptr PullRequest);
  MergePullRequest :
    string -> string -> Z -> MergePullRequestOption -> Reply bool
}.

Definition zeroListOptions : ListOptions := {| Page := 0; PageSize := 0 |}.

End sdk.

(** ** The world: the transport calls made so far, oldest first *)

Definition World : Type := list sdk.Request.

(** A computation that may call the transport. *)
Definition M (A : Type) : Type := World -> A * World.

Definition ret {A} (a : A) : M A := fun w => (a, w).

Definition bind {A B} (m : M A) (k : A -> M B) : M B :=
  fun w => let (a, w') := m w in k a w'.

(** One transport call: the request is recorded and the reply handed back. *)
Definition call {A} (r : sdk.Request) (reply : A) : M A :=
  fun w => (reply, w ++ [r]).

Declare Scope go_scope.
Delimit Scope go_scope with go.
Notation "x <- m ;; k" := (bind m (fun x => k))
  (at level 61, m at next level, right associativity) : go_scope.
Notation "' pat <- m ;; k" := (bind m (fun x => match x with pat => k end))
  (at level 61, pat pattern, m at next level, right associativity) : go_scope.
Local Open Scope go_scope.

(** ** Error translator *)

(** Modelled from the spec: [handleHTTPError] is not among the sources.
    A nil error passes through as nil; a present response with status 404
    gives the [ErrNotFound] sentinel whatever the error says; every other
    non-nil error, also one with no response at all, is wrapped as a
    generic provider failure that keeps the original error. *)
Definition handleHTTPError (res : ptr sdk.Response) (err : option error) : option error :=
  match err with
  | None => None
  | Some e =>
      match res with
      | Some r =>
          if (sdk.StatusCode r =? 404)%Z then Some ErrNotFound
          else Some (ProviderFailure e)
      | None => Some (ProviderFailure e)
      end
  end.

(** ** Pagination driver *)

(** The variables a list accessor shares with its page callback: the
    options struct whose [ListOptions] the driver advances through the
    [listOpts] pointer, the accumulator [apiObjs], and the world. *)
Record Frame (A : Type) : Type := {
  opts : sdk.ListOptions;
  apiObjs : list A;
  world : World
}.

Definition setPage {A} (p : Z) (fr : Frame A) : Frame A :=
  {| opts := {| sdk.Page := p; sdk.PageSize := sdk.PageSize (opts fr) |};
     apiObjs := apiObjs fr;
     world := world fr |}.

(** The page callback handed to the driver, a closure over the frame; it
    returns a response pointer and an error. *)
Definition PageFn (A : Type) : Type :=
  Frame A -> (ptr sdk.Response * option error) * Frame A.

(** Modelled from the spec: [allPages] is not among the sources.  The loop
    of steps 2 to 5: call the callback; on an error return its translation
    and stop; on (nil, nil) stop with success; otherwise add one to the page
    number and go round again.  The loop has no bound of its own, so the
    model counts rounds in [fuel]; [None] says that [fuel] rounds did not
    reach a return. *)
Fixpoint allPages_loop {A} (fuel : nat) (fn : PageFn A) (fr : Frame A)
  : option (option error * Frame A) :=
  match fuel with
  | O => None
  | S fuel' =>
      let '((resp, err), fr1) := fn fr in
      match err with
      | Some _ => Some (handleHTTPError resp err, fr1)
      | None =>
          match resp with
          | None => Some (None, fr1)
          | Some _ =>
              allPages_loop fuel' fn (setPage (sdk.Page (opts fr1) + 1) fr1)
          end
      end
  end.

(** Modelled from the spec: step 1 sets the cursor to page 1 and leaves
    the page size as the caller configured it; then the loop runs. *)
Definition allPages {A} (fuel : nat) (fn : PageFn A) (fr : Frame A)
  : option (option error * Frame A) :=
  allPages_loop fuel fn (setPage 1 fr).

Definition called {A} (r : sdk.Request) (fr : Frame A) : Frame A :=
  {| opts := opts fr; apiObjs := apiObjs fr; world := world fr ++ [r] |}.

Definition appended {A} (pageObjs : slice A) (fr : Frame A) : Frame A :=
  {| opts := opts fr; apiObjs := append (apiObjs fr) pageObjs; world := world fr |}.

Definition newFrame {A} (w : World) : Frame A :=
  {| opts := sdk.zeroListOptions; apiObjs := []; world := w |}.

(** ** Validation contracts applied to a list *)

(** The loop [for _, apiObj := range apiObjs] that returns the first
    non-nil error of [validate]; each element is handed over as a non-nil
    pointer. *)
Fixpoint rangeValidate {A} (validate : ptr A -> option error) (objs : list A)
  : option error :=
  match objs with
  | [] => None
  | apiObj :: rest =>
      match validate (Some apiObj) with
      | Some e => Some e
      | None => rangeValidate validate rest
      end
  end.

(** Modelled from the spec: the three validators are not among the
    sources.  An organization needs a non-empty name, a repository a
    non-empty full name and an owner, a deploy key non-empty key material
    and a title; the error names the first missing field.  The adapter
    below takes its validators as parameters; these are the ones used
    where a concrete contract is needed. *)
Definition specValidateOrganizationAPI (apiObj : ptr sdk.Organization) : option error :=
  match apiObj with
  | None => Some (ValidationError "Organization")
  | Some o =>
      if String.eqb (sdk.UserName o) "" then Some (ValidationError "UserName") else None
  end.

Definition specValidateRepositoryAPI (apiObj : ptr sdk.Repository) : option error :=
  match apiObj with
  | None => Some (ValidationError "Repository")
  | Some r =>
      if String.eqb (sdk.FullName r) "" then Some (ValidationError "FullName")
      else match sdk.Owner r with
           | None => Some (ValidationError "Owner")
           | Some _ => None
           end
  end.

Definition specValidateDeployKeyAPI (apiObj : ptr sdk.DeployKey) : option error :=
  match apiObj with
  | None => Some (ValidationError "DeployKey")
  | Some k =>
      if String.eqb (sdk.Key k) "" then Some (ValidationError "Key")
      else if String.eqb (sdk.Title k) "" then Some (ValidationError "Title")
      else None
  end.

(** ** The wrapper [giteaClientImpl] *)

Record giteaClientImpl : Type := {
  c : sdk.Client;
  destructiveActions : bool
}.

(** What a list accessor hands back when it returns: the pair of results
    and the world after its calls.  [None] stands for a run that did not
    return within the fuel given. *)
Definition Run (A : Type) : Type := option (A * World).

Section Adapter.

Variable validateOrganizationAPI : ptr sdk.Organization -> option error.
Variable validateRepositoryAPI : ptr sdk.Repository -> option error.
Variable validateDeployKeyAPI : ptr sdk.DeployKey -> option error.

Definition Client (this : giteaClientImpl) : sdk.Client := c this.

Definition GetOrg (this : giteaClientImpl) (orgName : string)
  : M (ptr sdk.Organization * option error) :=
  '(apiObj, res, err) <- call (sdk.ReqGetOrg orgName) (sdk.GetOrg (c this) orgName) ;;
  match err with
  | Some _ => ret (None, handleHTTPError res err)
  | None =>
      (* Validate the API object *)
      match validateOrganizationAPI apiObj with
      | Some e => ret (None, Some e)
      | None => ret (apiObj, None)
      end
  end.

Definition ListOrgs (this : giteaClientImpl) (fuel : nat) (w : World)
  : Run (slice sdk.Organization * option error) :=
  match
    allPages fuel
      (fun fr =>
         (* GET /user/orgs *)
         let '(pageObjs, resp, listErr) := sdk.ListMyOrgs (c this) (opts fr) in
         let fr := called (sdk.ReqListMyOrgs (opts fr)) fr in
         if (0 <? len pageObjs)%nat
         then ((resp, listErr), appended pageObjs fr)
         else ((None, None), fr))
      (newFrame w)
  with
  | None => None
  | Some (Some e, fr) => Some ((None, Some e), world fr)
  | Some (None, fr) =>
      (* Validate the API objects *)
      match rangeValidate validateOrganizationAPI (apiObjs fr) with
      | Some e => Some ((None, Some e), world fr)
      | None => Some ((Some (apiObjs fr), None), world fr)
      end
  end.

Definition ListOrgTeams (this : giteaClientImpl) (orgName : string)
           (fuel : nat) (w : World)
  : Run (slice sdk.Team * option error) :=
  match
    allPages fuel
      (fun fr =>
         (* GET /orgs/{org}/teams *)
         let '(pageObjs, resp, listErr) := sdk.ListOrgTeams (c this) orgName (opts fr) in
         let fr := called (sdk.ReqListOrgTeams orgName (opts fr)) fr in
         if (0 <? len pageObjs)%nat
         then ((resp, listErr), appended pageObjs fr)
         else ((None, None), fr))
      (newFrame w)
  with
  | None => None
  | Some (Some e, fr) => Some ((None, Some e), world fr)
  | Some (None, fr) => Some ((Some (apiObjs fr), None), world fr)
  end.

(** The scan [for _, team := range teams]: the first team whose name is
    [teamName] decides the result. *)
Fixpoint scanTeams (this : giteaClientImpl) (teamName : string)
         (teams : list sdk.Team) : M (slice sdk.User * option error) :=
  match teams with
  | [] => ret (None, Some ErrNotFound)
  | team :: rest =>
      if String.eqb (sdk.Name team) teamName then
        '(users, _, err) <-
           call (sdk.ReqListTeamMembers (sdk.ID team) sdk.zeroListOptions)
                (sdk.ListTeamMembers (c this) (sdk.ID team) sdk.zeroListOptions) ;;
        match err with
        | Some e =>
            ret (None,
                 Some (Errorf ("failed to list team " ++ teamName ++ " members: ") e))
        | None => ret (users, None)
        end
      else scanTeams this teamName rest
  end.

Definition ListOrgTeamMembers (this : giteaClientImpl) (orgName teamName : string)
           (fuel : nat) (w : World)
  : Run (slice sdk.User * option error) :=
  match ListOrgTeams this orgName fuel w with
  | None => None
  | Some ((_, Some e), w1) => Some ((None, Some e), w1)
  | Some ((teams, None), w1) => Some (scanTeams this teamName (elems teams) w1)
  end.

Definition validateRepositoryAPIResp (apiObj : ptr sdk.Repository)
           (res : ptr sdk.Response) (err : option error)
  : ptr sdk.Repository * option error :=
  (* If the response contained an error, return *)
  match err with
  | Some _ => (None, handleHTTPError res err)
  | None =>
      (* Make sure apiObj is valid *)
      match validateRepositoryAPI apiObj with
      | Some e => (None, Some e)
      | None => (apiObj, None)
      end
  end.

Definition GetRepo (this : giteaClientImpl) (owner repo : string)
  : M (ptr sdk.Repository * option error) :=
  '(apiObj, res, err) <- call (sdk.ReqGetRepo owner repo) (sdk.GetRepo (c this) owner repo) ;;
  ret (validateRepositoryAPIResp apiObj res err).

Definition validateRepositoryObjects (apiObjs : list sdk.Repository)
  : slice sdk.Repository * option error :=
  match rangeValidate validateRepositoryAPI apiObjs with
  | Some e => (None, Some e)
  | None => (Some apiObjs, None)
  end.

Definition ListOrgRepos (this : giteaClientImpl) (org : string)
           (fuel : nat) (w : World)
  : Run (slice sdk.Repository * option error) :=
  match
    allPages fuel
      (fun fr =>
         (* GET /orgs/{org}/repos *)
         let '(pageObjs, resp, listErr) := sdk.ListOrgRepos (c this) org (opts fr) in
         let fr := called (sdk.ReqListOrgRepos org (opts fr)) fr in
         if (0 <? len pageObjs)%nat
         then ((resp, listErr), appended pageObjs fr)
         else ((None, None), fr))
      (newFrame w)
  with
  | None => None
  | Some (Some e, fr) => Some ((None, Some e), world fr)
  | Some (None, fr) => Some (validateRepositoryObjects (apiObjs fr), world fr)
  end.

Definition ListUserRepos (this : giteaClientImpl) (username : string)
           (fuel : nat) (w : World)
  : Run (slice sdk.Repository * option error) :=
  match
    allPages fuel
      (fun fr =>
         (* GET /users/{username}/repos *)
         let '(pageObjs, resp, listErr) := sdk.ListUserRepos (c this) username (opts fr) in
         let fr := called (sdk.ReqListUserRepos username (opts fr)) fr in
         if (0 <? len pageObjs)%nat
         then ((resp, listErr), appended pageObjs fr)
         else ((None, None), fr))
      (newFrame w)
  with
  | None => None
  | Some (Some e, fr) => Some ((None, Some e), world fr)
  | Some (None, fr) => Some (validateRepositoryObjects (apiObjs fr), world fr)
  end.

Definition CreateRepo (this : giteaClientImpl) (orgName : string)
           (req : sdk.CreateRepoOption)
  : M (ptr sdk.Repository * option error) :=
  if negb (String.eqb orgName "") then
    '(apiObj, res, err) <-
       call (sdk.ReqCreateOrgRepo orgName req) (sdk.CreateOrgRepo (c this) orgName req) ;;
    ret (validateRepositoryAPIResp apiObj res err)
  else
    '(apiObj, res, err) <- call (sdk.ReqCreateRepo req) (sdk.CreateRepo (c this) req) ;;
    ret (validateRepositoryAPIResp apiObj res err).

Definition UpdateRepo (this : giteaClientImpl) (owner repo : string)
           (req : sdk.EditRepoOption)
  : M (ptr sdk.Repository * option error) :=
  '(apiObj, res, err) <-
     call (sdk.ReqEditRepo owner repo req) (sdk.EditRepo (c this) owner repo req) ;;
  ret (validateRepositoryAPIResp apiObj res err).

Definition DeleteRepo (this : giteaClientImpl) (owner repo : string)
  : M (option error) :=
  (* Don't allow deleting repositories if the user didn't explicitly
     allow dangerous API calls. *)
  if negb (destructiveActions this) then
    ret (Some (Errorf "cannot delete repository: " ErrDestructiveCallDisallowed))
  else
    '(res, err) <- call (sdk.ReqDeleteRepo owner repo) (sdk.DeleteRepo (c this) owner repo) ;;
    ret (handleHTTPError res err).

Definition ListKeys (this : giteaClientImpl) (owner repo : string)
           (fuel : nat) (w : World)
  : Run (slice sdk.DeployKey * option error) :=
  match
    allPages fuel
      (fun fr =>
         (* GET /repos/{owner}/{repo}/keys *)
         let '(pageObjs, resp, listErr) := sdk.ListDeployKeys (c this) owner repo (opts fr) in
         let fr := called (sdk.ReqListDeployKeys owner repo (opts fr)) fr in
         if (0 <? len pageObjs)%nat
         then ((resp, listErr), appended pageObjs fr)
         else ((None, None), fr))
      (newFrame w)
  with
  | None => None
  | Some (Some e, fr) => Some ((None, Some e), world fr)
  | Some (None, fr) =>
      match rangeValidate validateDeployKeyAPI (apiObjs fr) with
      | Some e => Some ((None, Some e), world fr)
      | None => Some ((Some (apiObjs fr), None), world fr)
      end
  end.

Definition ListCommitsPage (this : giteaClientImpl) (owner repo branch : string)
           (perPage page : Z)
  : M (slice sdk.Commit * option error) :=
  let opts :=
    {| sdk.lc_ListOptions := {| sdk.Page := page; sdk.PageSize := perPage |};
       sdk.SHA := branch |} in
  '(apiObjs, _, listErr) <-
     call (sdk.ReqListRepoCommits owner repo opts)
          (sdk.ListRepoCommits (c this) owner repo opts) ;;
  match listErr with
  | Some e => ret (None, Some e)
  | None => ret (apiObjs, None)
  end.

Definition CreateKey (this : giteaClientImpl) (owner repo : string)
           (req : sdk.DeployKey)
  : M (ptr sdk.DeployKey * option error) :=
  let opts :=
    {| sdk.ck_Title := sdk.Title req; sdk.ck_Key := sdk.Key req;
       sdk.ck_ReadOnly := sdk.ReadOnly req |} in
  '(apiObj, res, err) <-
     call (sdk.ReqCreateDeployKey owner repo opts)
          (sdk.CreateDeployKey (c this) owner repo opts) ;;
  match err with
  | Some _ => ret (None, handleHTTPError res err)
  | None =>
      match validateDeployKeyAPI apiObj with
      | Some e => ret (None, Some e)
      | None => ret (apiObj, None)
      end
  end.

Definition DeleteKey (this : giteaClientImpl) (owner repo : string) (id : Z)
  : M (option error) :=
  '(res, err) <-
     call (sdk.ReqDeleteDeployKey owner repo id) (sdk.DeleteDeployKey (c this) owner repo id) ;;
  ret (handleHTTPError res err).

Definition GetTeamPermissions (this : giteaClientImpl) (orgName repo teamName : string)
  : M (Outcome (ptr sdk.AccessMode * option error)) :=
  '(apiObj, res, err) <-
     call (sdk.ReqCheckRepoTeam orgName repo teamName)
          (sdk.CheckRepoTeam (c this) orgName repo teamName) ;;
  match err with
  | Some _ => ret (Returned (None, handleHTTPError res err))
  | None =>
      match apiObj with
      | Some team => ret (Returned (Some (sdk.Permission team), None))
      | None => ret (Panicked _ "invalid memory address or nil pointer dereference")
      end
  end.

(** [GetRepoTeams] calls the method of the same name on its own
    receiver, not an endpoint of [c.c]: the body is reached again before
    any transport call.  [fuel] bounds the depth of these calls. *)
Fixpoint GetRepoTeams (fuel : nat) (this : giteaClientImpl) (orgName repo : string)
         (w : World) : Run (slice sdk.Team * option error) :=
  match fuel with
  | O => None
  | S fuel' =>
      match GetRepoTeams fuel' this orgName repo w with
      | None => None
      | Some ((_, Some e), w') => Some ((None, Some e), w')
      | Some ((apiObjs, None), w') => Some ((apiObjs, None), w')
      end
  end.

(** The same method as a relation between a call and what it returns:
    its one rule needs the inner call to have returned. *)
Inductive GetRepoTeams_returns (this : giteaClientImpl) (orgName repo : string)
  : World -> (slice sdk.Team * option error) -> World -> Prop :=
| GetRepoTeams_inner_err : forall w apiObjs e w',
    GetRepoTeams_returns this orgName repo w (apiObjs, Some e) w' ->
    GetRepoTeams_returns this orgName repo w (None, Some e) w'
| GetRepoTeams_inner_ok : forall w apiObjs w',
    GetRepoTeams_returns this orgName repo w (apiObjs, None) w' ->
    GetRepoTeams_returns this orgName repo w (apiObjs, None) w'.

Definition AddTeam (this : giteaClientImpl) (orgName repo teamName : string)
           (permission : string)
  : M (option error) :=
  '(res, err) <-
     call (sdk.ReqAddRepoTeam orgName repo teamName)
          (sdk.AddRepoTeam (c this) orgName repo teamName) ;;
  ret (handleHTTPError res err).

Definition RemoveTeam (this : giteaClientImpl) (orgName repo teamName : string)
  : M (option error) :=
  '(res, err) <-
     call (sdk.ReqRemoveRepoTeam orgName repo teamName)
          (sdk.RemoveRepoTeam (c this) orgName repo teamName) ;;
  ret (handleHTTPError res err).

End Adapter.

(** ** Pull requests *)

(** [gitprovider.RepositoryRef], as far as the pull-request client asks it. *)
Record RepositoryRef : Type := {
  GetIdentity : string;
  GetRepository : string
}.

(** [clientContext] holds the wrapper; [c.c.Client()] is its SDK client. *)
Record clientContext : Type := { ctx_c : giteaClientImpl }.

Record PullRequestClient : Type := {
  ctx : clientContext;
  ref : RepositoryRef
}.

Module PullRequests.
Section PullRequests.

(** [context.Context], which no method of the client looks at. *)
Variable Context : Type.
(** [gitprovider.PullRequest] and its constructor [newPullRequest], which
    are not among the sources. *)
Variable PullRequest : Type.
Variable newPullRequest : clientContext -> ptr sdk.PullRequest -> PullRequest.

(** List lists all pull requests in the repository. *)
Definition List (this : PullRequestClient) (_ : Context)
  : M (slice PullRequest * option error) :=
  let opts := sdk.zeroListOptions in
  '(prs, _, err) <-
     call (sdk.ReqListRepoPullRequests (GetIdentity (ref this)) (GetRepository (ref this)) opts)
          (sdk.ListRepoPullRequests (Client (ctx_c (ctx this)))
             (GetIdentity (ref this)) (GetRepository (ref this)) opts) ;;
  match err with
  | Some e => ret (None, Some e)
  | None =>
      ret (Some (map (fun pr => newPullRequest (ctx this) (Some pr)) (elems prs)), None)
  end.

(** Create creates a pull request with the given specifications. *)
Definition Create (this : PullRequestClient) (_ : Context)
           (title branch baseBranch description : string)
  : M (ptr PullRequest * option error) :=
  let prOpts :=
    {| sdk.Head := ""; sdk.Base := ""; sdk.pr_Title := title; sdk.Body := "" |} in
  '(pr, _, err) <-
     call (sdk.ReqCreatePullRequest (GetIdentity (ref this)) (GetRepository (ref this)) prOpts)
          (sdk.CreatePullRequest (Client (ctx_c (ctx this)))
             (GetIdentity (ref this)) (GetRepository (ref this)) prOpts) ;;
  match err with
  | Some e => ret (None, Some e)
  | None => ret (Some (newPullRequest (ctx this) pr), None)
  end.

(** Get retrieves an existing pull request by number. *)
Definition Get (this : PullRequestClient) (_ : Context) (number : Z)
  : M (ptr PullRequest * option error) :=
  '(pr, _, err) <-
     call (sdk.ReqGetPullRequest (GetIdentity (ref this)) (GetRepository (ref this)) number)
          (sdk.GetPullRequest (Client (ctx_c (ctx this)))
             (GetIdentity (ref this)) (GetRepository (ref this)) number) ;;
  match err with
  | Some e => ret (None, Some e)
  | None => ret (Some (newPullRequest (ctx this) pr), None)
  end.

(** Merge merges a pull request with the given specifications. *)
Definition Merge (this : PullRequestClient) (_ : Context) (number : Z)
           (mergeMethod message : string)
  : M (option error) :=
  let mergeOpts := {| sdk.Style := mergeMethod; sdk.Message := message |} in
  '(_, _, err) <-
     call (sdk.ReqMergePullRequest (GetIdentity (ref this)) (GetRepository (ref this))
             number mergeOpts)
          (sdk.MergePullRequest (Client (ctx_c (ctx this)))
             (GetIdentity (ref this)) (GetRepository (ref this)) number mergeOpts) ;;
  match err with
  | Some e => ret (Some e)
  | None => ret None
  end.

(** [requests[idx] = v]: an index outside the slice panics, which [None]
    stands for. *)
Fixpoint setAt {A} (l : list A) (idx : nat) (v : A) : option (list A) :=
  match l, idx with
  | [], _ => None
  | _ :: rest, O => Some (v :: rest)
  | x :: rest, S i =>
      match setAt rest i v with
      | Some rest' => Some (x :: rest')
      | None => None
      end
  end.

(** The loop [for idx, pr := range prs] of [List], slot by slot, on the
    slice that [make] has filled with nil values. *)
Fixpoint fillRequests (cc : clientContext) (idx : nat) (prs : list sdk.PullRequest)
         (requests : list (ptr PullRequest)) : option (list (ptr PullRequest)) :=
  match prs with
  | [] => Some requests
  | pr :: rest =>
      match setAt requests idx (Some (newPullRequest cc (Some pr))) with
      | Some requests' => fillRequests cc (S idx) rest requests'
      | None => None
      end
  end.

(** [List] with its slice made and filled by index as the source writes
    it; an entry of the result is an interface value, nil until it is
    assigned. *)
Definition ListIndexed (this : PullRequestClient) (_ : Context)
  : M (Outcome (slice (ptr PullRequest) * option error)) :=
  let opts := sdk.zeroListOptions in
  '(prs, _, err) <-
     call (sdk.ReqListRepoPullRequests (GetIdentity (ref this)) (GetRepository (ref this)) opts)
          (sdk.ListRepoPullRequests (Client (ctx_c (ctx this)))
             (GetIdentity (ref this)) (GetRepository (ref this)) opts) ;;
  match err with
  | Some e => ret (Returned (None, Some e))
  | None =>
      match fillRequests (ctx this) 0 (elems prs) (repeat None (len prs)) with
      | Some requests => ret (Returned (Some requests, None))
      | None => ret (Panicked _ "index out of range")
      end
  end.

End PullRequests.
End PullRequests.

(** ** Page sequences and test doubles *)

(** The page callback of the list accessors, with the endpoint left open:
    [fetch] is the SDK call and [req] the request it sends.  Each List
    accessor above passes this closure with its own endpoint. *)
Definition pageFn {A} (fetch : sdk.ListOptions -> sdk.Reply (slice A))
           (req : sdk.ListOptions -> sdk.Request) : PageFn A :=
  fun fr =>
    let '(pageObjs, resp, listErr) := fetch (opts fr) in
    let fr := called (req (opts fr)) fr in
    if (0 <? len pageObjs)%nat
    then ((resp, listErr), appended pageObjs fr)
    else ((None, None), fr).

Definition cursor (page size : Z) : sdk.ListOptions :=
  {| sdk.Page := page; sdk.PageSize := size |}.

(** [servesPages fetch size start pages]: from page number [start] on,
    the endpoint answers with the pages of [pages] in order, each of them
    non-empty, with response metadata and without error; the page after
    them is empty, again without error. *)
Fixpoint servesPages {A} (fetch : sdk.ListOptions -> sdk.Reply (slice A))
         (size start : Z) (pages : list (list A)) : Prop :=
  match pages with
  | [] =>
      exists s resp, fetch (cursor start size) = (s, resp, None) /\ len s = 0
  | page :: rest =>
      page <> [] /\
      (exists s resp,
          fetch (cursor start size) = (s, Some resp, None) /\ elems s = page) /\
      servesPages fetch size (start + 1) rest
  end.

(** The requests of [n] successive fetches, from page [start] on. *)
Fixpoint pageRequests (req : sdk.ListOptions -> sdk.Request)
         (size start : Z) (n : nat) : list sdk.Request :=
  match n with
  | O => []
  | S n' => req (cursor start size) :: pageRequests req size (start + 1) n'
  end.

(** What a validating list accessor returns for the accumulated [objs]. *)
Definition validated {A} (validate : ptr A -> option error) (objs : list A)
  : slice A * option error :=
  match rangeValidate validate objs with
  | Some e => (None, Some e)
  | None => (Some objs, None)
  end.

(** A validator that accepts everything: with it a list accessor returns
    its accumulator as it is. *)
Definition noValidation {A} : ptr A -> option error := fun _ => None.

Module Fake.

Definition ok : ptr sdk.Response := Some {| sdk.StatusCode := 200 |}.
Definition status (code : Z) : ptr sdk.Response := Some {| sdk.StatusCode := code |}.

(** An endpoint that serves [pages]: page [n] is the [n]-th of them, any
    other page is empty. *)
Definition paged {A} (pages : list (list A)) : sdk.ListOptions -> sdk.Reply (slice A) :=
  fun o =>
    if (sdk.Page o <? 1)%Z then (None, ok, None)
    else match nth_error pages (Z.to_nat (sdk.Page o - 1)) with
         | Some page => (Some page, ok, None)
         | None => (None, ok, None)
         end.

(** An endpoint that fails: no payload, the given status and error. *)
Definition failing {A} (code : Z) (msg : string) : sdk.Reply (option A) :=
  (None, status code, Some (RemoteError msg)).

(** A test double of the SDK client, built from the behaviour of its
    list endpoints; every other endpoint succeeds with no payload. *)
Definition client
           (orgs : sdk.ListOptions -> sdk.Reply (slice sdk.Organization))
           (teams : sdk.ListOptions -> sdk.Reply (slice sdk.Team))
           (members : Z -> sdk.Reply (slice sdk.User))
           (repos : sdk.ListOptions -> sdk.Reply (slice sdk.Repository))
           (keys : sdk.ListOptions -> sdk.Reply (slice sdk.DeployKey))
           (commits : sdk.Reply (slice sdk.Commit))
           (prs : sdk.Reply (slice sdk.PullRequest))
  : sdk.Client :=
  {| sdk.GetOrg := fun _ => (None, ok, None);
     sdk.ListMyOrgs := orgs;
     sdk.ListOrgTeams := fun _ => teams;
     sdk.ListTeamMembers := fun id _ => members id;
     sdk.GetRepo := fun _ _ => (None, ok, None);
     sdk.ListOrgRepos := fun _ => repos;
     sdk.ListUserRepos := fun _ => repos;
     sdk.CreateOrgRepo := fun _ _ => (None, ok, None);
     sdk.CreateRepo := fun _ => (None, ok, None);
     sdk.EditRepo := fun _ _ _ => (None, ok, None);
     sdk.DeleteRepo := fun _ _ => (ok, None);
     sdk.ListDeployKeys := fun _ _ => keys;
     sdk.ListRepoCommits := fun _ _ _ => commits;
     sdk.CreateDeployKey := fun _ _ _ => (None, ok, None);
     sdk.DeleteDeployKey := fun _ _ _ => (ok, None);
     sdk.CheckRepoTeam := fun _ _ _ => (None, ok, None);
     sdk.AddRepoTeam := fun _ _ _ => (ok, None);
     sdk.RemoveRepoTeam := fun _ _ _ => (ok, None);
     sdk.ListRepoPullRequests := fun _ _ _ => prs;
     sdk.CreatePullRequest := fun _ _ _ => (None, ok, None);
     sdk.GetPullRequest := fun _ _ _ => (None, ok, None);
     sdk.MergePullRequest := fun _ _ _ _ => (true, ok, None) |}.

Definition org (name : string) : sdk.Organization := {| sdk.UserName := name |}.
Definition user (name : string) : sdk.User := {| sdk.Login := name |}.
Definition team (id : Z) (name : string) : sdk.Team :=
  {| sdk.ID := id; sdk.Name := name; sdk.Permission := {| sdk.mode := "read" |} |}.
Definition repo (name : string) : sdk.Repository :=
  {| sdk.FullName := name; sdk.Owner := Some (user "owner") |}.
Definition key (title material : string) : sdk.DeployKey :=
  {| sdk.KeyID := 1; sdk.Key := material; sdk.Title := title; sdk.ReadOnly := true |}.

(** A client whose endpoints all answer with nothing. *)
Definition quiet : sdk.Client :=
  client (paged []) (paged []) (fun _ => (None, ok, None)) (paged []) (paged [])
         (None, ok, None) (None, ok, None).

(** Three organizations on two pages, then the empty page. *)
Definition orgPages : list (list sdk.Organization) :=
  [[org "alpha"; org "beta"]; [org "gamma"]].

(** The second organization of the first page has no name. *)
Definition orgPagesOneBad : list (list sdk.Organization) :=
  [[org "alpha"; org ""]; [org "gamma"]].

Definition repoPagesOneBad : list (list sdk.Repository) :=
  [[repo "o/one"]; [repo ""; repo "o/three"]].

Definition keyPagesOneBad : list (list sdk.DeployKey) :=
  [[key "ci" "ssh-rsa AAAA"; key "" "ssh-rsa BBBB"]].

Definition listing : sdk.Client :=
  client (paged orgPages) (paged []) (fun _ => (None, ok, None)) (paged [])
         (paged []) (None, ok, None) (None, ok, None).

Definition listingBad : sdk.Client :=
  client (paged orgPagesOneBad) (paged []) (fun _ => (None, ok, None))
         (paged repoPagesOneBad) (paged keyPagesOneBad)
         (None, ok, None) (None, ok, None).

(** Every list endpoint answers its first page with status 500, an
    error and no items. *)
Definition broken : sdk.Client :=
  client (fun _ => failing 500 "500 Internal Server Error")
         (fun _ => failing 500 "500 Internal Server Error")
         (fun _ => failing 500 "500 Internal Server Error")
         (fun _ => failing 500 "500 Internal Server Error")
         (fun _ => failing 500 "500 Internal Server Error")
         (failing 500 "500 Internal Server Error")
         (failing 500 "500 Internal Server Error").

(** Teams "A" and "B" exist and the member list of "A" can be fetched. *)
Definition teamsAB : sdk.Client :=
  client (paged []) (paged [[team 7 "A"; team 8 "B"]])
         (fun id => if (id =? 7)%Z then (Some [user "ann"], ok, None)
                    else (Some [user "bob"], ok, None))
         (paged []) (paged []) (None, ok, None) (None, ok, None).

(** Teams "A" and "B" exist, and every member request is answered 404. *)
Definition teamsNoMembers : sdk.Client :=
  client (paged []) (paged [[team 7 "A"; team 8 "B"]])
         (fun _ => failing 404 "404 Not Found")
         (paged []) (paged []) (None, ok, None) (None, ok, None).

(** The commit and pull-request endpoints answer 404. *)
Definition missingRepo : sdk.Client :=
  client (paged []) (paged []) (fun _ => (None, ok, None)) (paged []) (paged [])
         (failing 404 "404 Not Found") (failing 404 "404 Not Found").

Definition impl (cl : sdk.Client) (destructive : bool) : giteaClientImpl :=
  {| c := cl; destructiveActions := destructive |}.

Definition badLister : giteaClientImpl := impl listingBad false.

(** [cl] with its two endpoints for creating a repository replaced. *)
Definition withCreate
           (personal : sdk.CreateRepoOption -> sdk.Reply (ptr sdk.Repository))
           (inOrg : string -> sdk.CreateRepoOption -> sdk.Reply (ptr sdk.Repository))
           (cl : sdk.Client) : sdk.Client :=
  {| sdk.GetOrg := sdk.GetOrg cl;
     sdk.ListMyOrgs := sdk.ListMyOrgs cl;
     sdk.ListOrgTeams := sdk.ListOrgTeams cl;
     sdk.ListTeamMembers := sdk.ListTeamMembers cl;
     sdk.GetRepo := sdk.GetRepo cl;
     sdk.ListOrgRepos := sdk.ListOrgRepos cl;
     sdk.ListUserRepos := sdk.ListUserRepos cl;
     sdk.CreateOrgRepo := inOrg;
     sdk.CreateRepo := personal;
     sdk.EditRepo := sdk.EditRepo cl;
     sdk.DeleteRepo := sdk.DeleteRepo cl;
     sdk.ListDeployKeys := sdk.ListDeployKeys cl;
     sdk.ListRepoCommits := sdk.ListRepoCommits cl;
     sdk.CreateDeployKey := sdk.CreateDeployKey cl;
     sdk.DeleteDeployKey := sdk.DeleteDeployKey cl;
     sdk.CheckRepoTeam := sdk.CheckRepoTeam cl;
     sdk.AddRepoTeam := sdk.AddRepoTeam cl;
     sdk.RemoveRepoTeam := sdk.RemoveRepoTeam cl;
     sdk.ListRepoPullRequests := sdk.ListRepoPullRequests cl;
     sdk.CreatePullRequest := sdk.CreatePullRequest cl;
     sdk.GetPullRequest := sdk.GetPullRequest cl;
     sdk.MergePullRequest := sdk.MergePullRequest cl |}.

(** Creating under the personal account answers with the repository
    "me/<name>".  Creating under an organization answers 404 for the
    organization "ghost" and otherwise with a repository whose full name
    is the name asked for, be it empty. *)
Definition creating : sdk.Client :=
  withCreate
    (fun opt => (Some (repo ("me/" ++ sdk.cr_Name opt)), status 201, None))
    (fun orgName opt =>
       if String.eqb orgName "ghost" then failing 404 "404 Not Found"
       else (Some (repo (sdk.cr_Name opt)), status 201, None))
    quiet.

(** Page 1 of the organizations and of the teams has items; every later
    page fails with status 500 and no items. *)
Definition flaky : sdk.Client :=
  client (fun o => if (sdk.Page o =? 1)%Z
                   then (Some [org "alpha"; org ""], ok, None)
                   else failing 500 "500 Internal Server Error")
         (fun o => if (sdk.Page o =? 1)%Z
                   then (Some [team 7 "A"], ok, None)
                   else failing 500 "500 Internal Server Error")
         (fun _ => (None, ok, None)) (paged []) (paged [])
         (None, ok, None) (None, ok, None).

End Fake.

(** The statement about team-member lookup as the description words it:
    whenever the team listing succeeds, no match gives [ErrNotFound], and
    a match gives the member list of the matching team, with no error. *)
Definition teamLookupAsDescribed (this : giteaClientImpl) (orgName teamName : string)
           (fuel : nat) (w : World) : Prop :=
  forall teams w1,
    ListOrgTeams this orgName fuel w = Some ((teams, None), w1) ->
    ((forall t, In t (elems teams) -> sdk.Name t <> teamName) ->
     ListOrgTeamMembers this orgName teamName fuel w
     = Some ((None, Some ErrNotFound), w1))
    /\
    (forall t, In t (elems teams) -> sdk.Name t = teamName ->
     exists t' w2,
       In t' (elems teams) /\ sdk.Name t' = teamName /\
       ListOrgTeamMembers this orgName teamName fuel w
       = Some ((fst (fst (sdk.ListTeamMembers (c this) (sdk.ID t') sdk.zeroListOptions)),
                None), w2)).

(** A validating list accessor [run], seen as a function of its validator,
    rejects a list with an invalid object as a whole: whenever the pages
    accumulate to [objs] (what [run] returns when nothing is validated)
    and some object of [objs] is invalid, [run] returns the nil slice and
    the error of the first invalid object, after the same transport
    calls. *)
Definition rejectsFirstInvalid {A}
           (run : (ptr A -> option error) -> Run (slice A * option error))
           (validate : ptr A -> option error) : Prop :=
  forall (objs : list A) (w' : World),
    run noValidation = Some ((Some objs, None), w') ->
    (exists x, In x objs /\ validate (Some x) <> None) ->
    exists pre bad post e,
      objs = pre ++ bad :: post /\
      (forall y, In y pre -> validate (Some y) = None) /\
      validate (Some bad) = Some e /\
      run validate = Some ((None, Some e), w').

(** ** Shapes of results *)

(** A list result is either a non-nil list of objects that all pass
    [validate], with a nil error, or the nil slice with an error. *)
Definition returnsValidated {A} (run : Run (slice A * option error))
           (validate : ptr A -> option error) : Prop :=
  forall s err w',
    run = Some ((s, err), w') ->
    match err with
    | None => exists objs, s = Some objs /\ forall x, In x objs -> validate (Some x) = None
    | Some _ => s = None
    end.

(** A single-object result against the reply it was made from: an object
    is returned only from a reply without error, is the object of the
    reply, and passes [validate]; and a reply without error whose object
    passes [validate] is returned as it is. *)
Definition objectOnlyIfAccepted {A} (reply : sdk.Reply (ptr A))
           (validate : ptr A -> option error) (result : ptr A * option error) : Prop :=
  let '(apiObj, _, err) := reply in
  (forall o, fst result = Some o ->
             snd result = None /\ err = None /\ apiObj = Some o /\
             validate (Some o) = None) /\
  (err = None -> validate apiObj = None -> result = (apiObj, None)).

(** A run that returns has sent at least one request, and only requests
    that satisfy [own], after the calls of the world it started in. *)
Definition onlySends {A} (run : Run A) (w : World) (own : sdk.Request -> Prop) : Prop :=
  forall r w',
    run = Some (r, w') ->
    exists reqs, w' = w ++ reqs /\ reqs <> [] /\ Forall own reqs.

(** The endpoint answers a failed request without items, as an SDK call
    does that could not decode a page. *)
Definition failuresCarryNoItems {A} (fetch : sdk.ListOptions -> sdk.Reply (slice A))
  : Prop :=
  forall o s resp e, fetch o = (s, resp, Some e) -> len s = 0.

(** A result that went through error translation and validation of the
    reply it was made from: an error of the reply comes back translated
    and without object; without error, an object that the validator
    rejects gives the validator's error and no object, and one that it
    accepts comes back as it is, with a nil error. *)
Definition translatedAndValidated {A} (validate : ptr A -> option error)
           (reply : sdk.Reply (ptr A)) (result : ptr A * option error) : Prop :=
  let '(apiObj, res, err) := reply in
  (forall e, err = Some e -> result = (None, handleHTTPError res (Some e))) /\
  (err = None -> forall e, validate apiObj = Some e -> result = (None, Some e)) /\
  (err = None -> validate apiObj = None -> result = (apiObj, None)).

(** * Properties *)

(** ** Small facts about slices and the world *)

Lemma len_elems {A} (s : slice A) : len s = length (elems s).
Proof. destruct s; reflexivity. Qed.

Lemma len_zero_elems {A} (s : slice A) : len s = 0 -> elems s = [].
Proof.
  rewrite len_elems. destruct (elems s); simpl; [reflexivity | discriminate].
Qed.

Lemma nonempty_len {A} (s : slice A) : elems s <> [] -> (0 <? len s)%nat = true.
Proof.
  intros H. apply Nat.ltb_lt. rewrite len_elems.
  destruct (elems s); simpl; [contradiction | lia].
Qed.

(** ** The driver on the page callback *)

Section Driver.

Context {A : Type}.
Variable fetch : sdk.ListOptions -> sdk.Reply (slice A).
Variable req : sdk.ListOptions -> sdk.Request.

(** One round of the callback on a non-empty page without error. *)
Lemma pageFn_nonempty (fr : Frame A) s resp err :
  fetch (opts fr) = (s, resp, err) ->
  elems s <> [] ->
  pageFn fetch req fr = ((resp, err), appended s (called (req (opts fr)) fr)).
Proof.
  intros Hf Hne. unfold pageFn. rewrite Hf.
  rewrite nonempty_len by assumption. reflexivity.
Qed.

(** One round of the callback on an empty page: response and error of
    the fetch are both dropped. *)
Lemma pageFn_empty (fr : Frame A) s resp err :
  fetch (opts fr) = (s, resp, err) ->
  len s = 0 ->
  pageFn fetch req fr = ((None, None), called (req (opts fr)) fr).
Proof.
  intros Hf H0. unfold pageFn. rewrite Hf, H0. reflexivity.
Qed.

(** The loop walks a served page sequence to its end: it needs one round
    more than there are non-empty pages, and leaves the pages
    concatenated behind the accumulator it started with. *)
Lemma allPages_loop_collects (size : Z) (pages : list (list A)) :
  forall (start : Z) (acc : list A) (w : World) (fuel : nat),
    servesPages fetch size start pages ->
    length pages < fuel ->
    allPages_loop fuel (pageFn fetch req)
      {| opts := cursor start size; apiObjs := acc; world := w |}
    = Some (None,
            {| opts := cursor (start + Z.of_nat (length pages)) size;
               apiObjs := acc ++ concat pages;
               world := w ++ pageRequests req size start (S (length pages)) |}).
Proof.
  induction pages as [| page rest IH]; intros start acc w fuel Hs Hfuel.
  - destruct fuel as [| fuel]; [simpl in Hfuel; lia |].
    destruct Hs as (s & resp & Hf & H0).
    simpl allPages_loop.
    rewrite (pageFn_empty _ (s := s) (resp := resp) (err := None)) by assumption.
    simpl. rewrite Z.add_0_r, app_nil_r. reflexivity.
  - destruct fuel as [| fuel]; [simpl in Hfuel; lia |].
    destruct Hs as (Hne & (s & resp & Hf & Hel) & Hrest).
    simpl allPages_loop.
    rewrite (pageFn_nonempty _ (s := s) (resp := Some resp) (err := None))
      by (try assumption; rewrite Hel; assumption).
    change (setPage _ _) with
      {| opts := cursor (start + 1) size;
         apiObjs := append acc s;
         world := w ++ [req (cursor start size)] |}.
    rewrite (IH (start + 1)%Z) by (try assumption; simpl in Hfuel; lia).
    unfold append. rewrite Hel.
    f_equal. f_equal. f_equal.
    + f_equal. simpl length. lia.
    + simpl concat. rewrite app_assoc. reflexivity.
    + rewrite <- app_assoc. reflexivity.
Qed.

(** The driver, started on a fresh frame, collects a page sequence that
    is served from page 1 on. *)
Lemma allPages_collects (pages : list (list A)) (w : World) (fuel : nat) :
  servesPages fetch 0 1 pages ->
  length pages < fuel ->
  allPages fuel (pageFn fetch req) (newFrame w)
  = Some (None,
          {| opts := cursor (1 + Z.of_nat (length pages)) 0;
             apiObjs := concat pages;
             world := w ++ pageRequests req 0 1 (S (length pages)) |}).
Proof.
  intros Hs Hfuel. unfold allPages, newFrame, setPage. simpl.
  fold (cursor 1 0).
  erewrite allPages_loop_collects by eassumption.
  reflexivity.
Qed.

(** A first fetch that fails without items ends the driver with success:
    the callback has replaced the error by (nil, nil). *)
Lemma allPages_first_error_lost (w : World) (fuel : nat) s resp e :
  fetch (cursor 1 0) = (s, resp, Some e) ->
  len s = 0 ->
  allPages (S fuel) (pageFn fetch req) (newFrame w)
  = Some (None,
          {| opts := cursor 1 0; apiObjs := []; world := w ++ [req (cursor 1 0)] |}).
Proof.
  intros Hf H0. unfold allPages, newFrame, setPage. simpl.
  fold (cursor 1 0).
  rewrite (pageFn_empty _ (s := s) (resp := resp) (err := Some e)) by assumption.
  reflexivity.
Qed.

(** More fuel never changes what a run has returned. *)
Lemma allPages_loop_fuel_mono (fn : PageFn A) (fuel : nat) :
  forall fr r, allPages_loop fuel fn fr = Some r ->
               allPages_loop (S fuel) fn fr = Some r.
Proof.
  induction fuel as [| fuel IH]; intros fr r H; [discriminate |].
  simpl in H. change (allPages_loop (S (S fuel)) fn fr) with
    (let '((resp, err), fr1) := fn fr in
     match err with
     | Some _ => Some (handleHTTPError resp err, fr1)
     | None =>
         match resp with
         | None => Some (None, fr1)
         | Some _ =>
             allPages_loop (S fuel) fn (setPage (sdk.Page (opts fr1) + 1) fr1)
         end
     end).
  destruct (fn fr) as [[resp err] fr1].
  destruct err; [assumption |].
  destruct resp; [| assumption].
  apply IH. assumption.
Qed.

(** An endpoint that answers every page with items, metadata and no
    error keeps the loop going: no amount of fuel reaches a return. *)
Lemma allPages_loop_endless (fuel : nat) :
  (forall o, exists s resp, fetch o = (s, Some resp, None) /\ elems s <> []) ->
  forall fr, allPages_loop fuel (pageFn fetch req) fr = None.
Proof.
  intros Hall. induction fuel as [| fuel IH]; intros fr; [reflexivity |].
  destruct (Hall (opts fr)) as (s & resp & Hf & Hne).
  cbn [allPages_loop].
  rewrite (pageFn_nonempty _ (s := s) (resp := Some resp) (err := None))
    by assumption.
  apply IH.
Qed.

End Driver.

(** The endpoint of the test double serves the pages it was built from. *)
Lemma paged_at {A} (pages : list (list A)) (k : nat) :
  Fake.paged pages (cursor (Z.of_nat k + 1) 0)
  = match nth_error pages k with
    | Some page => (Some page, Fake.ok, None)
    | None => (None, Fake.ok, None)
    end.
Proof.
  unfold Fake.paged, cursor. cbn [sdk.Page].
  destruct (Z.of_nat k + 1 <? 1)%Z eqn:E; [apply Z.ltb_lt in E; lia |].
  replace (Z.to_nat (Z.of_nat k + 1 - 1)) with k by lia.
  reflexivity.
Qed.

Lemma paged_serves {A} (pages : list (list A)) :
  Forall (fun page => page <> []) pages ->
  forall (pre : list (list A)),
    servesPages (Fake.paged (pre ++ pages)) 0 (Z.of_nat (length pre) + 1) pages.
Proof.
  induction 1 as [| page rest Hne _ IH]; intros pre.
  - cbn [servesPages]. exists None, Fake.ok. split; [| reflexivity].
    rewrite paged_at, app_nil_r.
    assert (Hn : nth_error pre (length pre) = None) by (apply nth_error_None; lia).
    rewrite Hn. reflexivity.
  - cbn [servesPages]. split; [assumption |]. split.
    + exists (Some page), {| sdk.StatusCode := 200 |}. split; [| reflexivity].
      rewrite paged_at, nth_error_app2 by lia.
      rewrite Nat.sub_diag. reflexivity.
    + replace (pre ++ page :: rest) with ((pre ++ [page]) ++ rest)
        by (rewrite <- app_assoc; reflexivity).
      replace (Z.of_nat (length pre) + 1 + 1)%Z
        with (Z.of_nat (length (pre ++ [page])) + 1)%Z
        by (rewrite length_app; simpl; lia).
      apply IH.
Qed.

(** ** Validation of a list *)

Lemma rangeValidate_noValidation {A} (objs : list A) :
  rangeValidate noValidation objs = None.
Proof. induction objs as [| x rest IH]; [reflexivity | exact IH]. Qed.

(** The range loop stops at the first object that the validator rejects. *)
Lemma rangeValidate_first_invalid {A} (validate : ptr A -> option error) :
  forall objs : list A,
    (exists x, In x objs /\ validate (Some x) <> None) ->
    exists pre bad post e,
      objs = pre ++ bad :: post /\
      (forall y, In y pre -> validate (Some y) = None) /\
      validate (Some bad) = Some e /\
      rangeValidate validate objs = Some e.
Proof.
  induction objs as [| x rest IH]; intros (bad & Hin & Hbad).
  - destruct Hin.
  - simpl. destruct (validate (Some x)) as [e |] eqn:Hx.
    + exists [], x, rest, e. repeat split; try assumption.
      intros y [].
    + destruct IH as (pre & b & post & e & Heq & Hpre & Hb & Hr).
      * destruct Hin as [-> | Hin]; [congruence |]. exists bad. split; assumption.
      * exists (x :: pre), b, post, e. subst rest. repeat split; try assumption.
        intros y [<- | Hy]; [assumption | apply Hpre; assumption].
Qed.

(** With every object valid the range loop reports nothing. *)
Lemma rangeValidate_all_valid {A} (validate : ptr A -> option error) (objs : list A) :
  (forall x, In x objs -> validate (Some x) = None) ->
  rangeValidate validate objs = None.
Proof.
  induction objs as [| x rest IH]; intros Hall; [reflexivity |].
  simpl. rewrite (Hall x (or_introl eq_refl)).
  apply IH. intros y Hy. apply Hall. right. assumption.
Qed.

(** ** Pagination and error translation *)

(** C1. Pagination collects every page.  When the organizations endpoint
    serves, from page 1 on, a finite sequence of non-empty pages followed
    by an empty page, and no fetch fails, then the driver run that
    [ListOrgs] starts returns (every amount of fuel from some bound on is
    enough) without error; its accumulator is the concatenation of the
    pages in fetch order, it has made one fetch per page and one for the
    empty page, and [ListOrgs] returns that accumulator, validated. *)
Theorem ListOrgs_collects_all_pages :
  forall (this : giteaClientImpl) (pages : list (list sdk.Organization)) (w : World),
    servesPages (sdk.ListMyOrgs (c this)) 0 1 pages ->
    exists fuel0 : nat, forall fuel : nat, fuel0 <= fuel ->
      exists fr : Frame sdk.Organization,
        allPages fuel (pageFn (sdk.ListMyOrgs (c this)) sdk.ReqListMyOrgs) (newFrame w)
        = Some (None, fr) /\
        apiObjs fr = concat pages /\
        world fr = w ++ pageRequests sdk.ReqListMyOrgs 0 1 (S (length pages)) /\
        forall validateOrganizationAPI,
          ListOrgs validateOrganizationAPI this fuel w
          = Some (validated validateOrganizationAPI (concat pages), world fr).
Proof.
  intros this pages w Hs.
  exists (S (length pages)). intros fuel Hfuel.
  pose proof (@allPages_collects _ (sdk.ListMyOrgs (c this)) sdk.ReqListMyOrgs
                pages w fuel Hs Hfuel) as Hrun.
  eexists. split; [exact Hrun |].
  split; [reflexivity |]. split; [reflexivity |].
  intros validateOrganizationAPI. unfold ListOrgs.
  change (allPages fuel _ (newFrame w))
    with (allPages fuel (pageFn (sdk.ListMyOrgs (c this)) sdk.ReqListMyOrgs) (newFrame w)).
  rewrite Hrun. unfold validated. cbn [apiObjs world].
  destruct (rangeValidate validateOrganizationAPI (concat pages)); reflexivity.
Qed.

Lemma ListOrgs_collects_all_pages_witness :
  servesPages (sdk.ListMyOrgs (c (Fake.impl Fake.listing false))) 0 1 Fake.orgPages /\
  exists fuel0 : nat, forall fuel : nat, fuel0 <= fuel ->
    exists fr : Frame sdk.Organization,
      allPages fuel
        (pageFn (sdk.ListMyOrgs (c (Fake.impl Fake.listing false))) sdk.ReqListMyOrgs)
        (newFrame [])
      = Some (None, fr) /\
      apiObjs fr = [Fake.org "alpha"; Fake.org "beta"; Fake.org "gamma"] /\
      world fr = [sdk.ReqListMyOrgs (cursor 1 0); sdk.ReqListMyOrgs (cursor 2 0);
                  sdk.ReqListMyOrgs (cursor 3 0)] /\
      forall validateOrganizationAPI,
        ListOrgs validateOrganizationAPI (Fake.impl Fake.listing false) fuel []
        = Some (validated validateOrganizationAPI
                  [Fake.org "alpha"; Fake.org "beta"; Fake.org "gamma"],
                world fr).
Proof.
  assert (Hs : servesPages (sdk.ListMyOrgs (c (Fake.impl Fake.listing false)))
                 0 1 Fake.orgPages).
  { simpl. repeat split; try discriminate.
    - exists (Some [Fake.org "alpha"; Fake.org "beta"]), {| sdk.StatusCode := 200 |}.
      split; reflexivity.
    - exists (Some [Fake.org "gamma"]), {| sdk.StatusCode := 200 |}.
      split; reflexivity.
    - exists None, Fake.ok. split; reflexivity. }
  split; [exact Hs |].
  exact (ListOrgs_collects_all_pages (Fake.impl Fake.listing false) Fake.orgPages [] Hs).
Defined.

(** The other list accessors collect their pages in the same way. *)
Lemma ListOrgTeams_collects (this : giteaClientImpl) (orgName : string)
      (pages : list (list sdk.Team)) (w : World) (fuel : nat) :
  servesPages (sdk.ListOrgTeams (c this) orgName) 0 1 pages ->
  length pages < fuel ->
  ListOrgTeams this orgName fuel w
  = Some ((Some (concat pages), None),
          w ++ pageRequests (sdk.ReqListOrgTeams orgName) 0 1 (S (length pages))).
Proof.
  intros Hs Hfuel. unfold ListOrgTeams.
  change (allPages fuel _ (newFrame w))
    with (allPages fuel (pageFn (sdk.ListOrgTeams (c this) orgName)
                           (sdk.ReqListOrgTeams orgName)) (newFrame w)).
  rewrite (@allPages_collects _ _ _ pages w fuel Hs Hfuel). reflexivity.
Qed.

Lemma ListOrgRepos_collects validateRepositoryAPI (this : giteaClientImpl) (org : string)
      (pages : list (list sdk.Repository)) (w : World) (fuel : nat) :
  servesPages (sdk.ListOrgRepos (c this) org) 0 1 pages ->
  length pages < fuel ->
  ListOrgRepos validateRepositoryAPI this org fuel w
  = Some (validated validateRepositoryAPI (concat pages),
          w ++ pageRequests (sdk.ReqListOrgRepos org) 0 1 (S (length pages))).
Proof.
  intros Hs Hfuel. unfold ListOrgRepos.
  change (allPages fuel _ (newFrame w))
    with (allPages fuel (pageFn (sdk.ListOrgRepos (c this) org)
                           (sdk.ReqListOrgRepos org)) (newFrame w)).
  rewrite (@allPages_collects _ _ _ pages w fuel Hs Hfuel). reflexivity.
Qed.

Lemma ListUserRepos_collects validateRepositoryAPI (this : giteaClientImpl)
      (username : string) (pages : list (list sdk.Repository)) (w : World) (fuel : nat) :
  servesPages (sdk.ListUserRepos (c this) username) 0 1 pages ->
  length pages < fuel ->
  ListUserRepos validateRepositoryAPI this username fuel w
  = Some (validated validateRepositoryAPI (concat pages),
          w ++ pageRequests (sdk.ReqListUserRepos username) 0 1 (S (length pages))).
Proof.
  intros Hs Hfuel. unfold ListUserRepos.
  change (allPages fuel _ (newFrame w))
    with (allPages fuel (pageFn (sdk.ListUserRepos (c this) username)
                           (sdk.ReqListUserRepos username)) (newFrame w)).
  rewrite (@allPages_collects _ _ _ pages w fuel Hs Hfuel). reflexivity.
Qed.

Lemma ListKeys_collects validateDeployKeyAPI (this : giteaClientImpl)
      (owner repo : string) (pages : list (list sdk.DeployKey)) (w : World) (fuel : nat) :
  servesPages (sdk.ListDeployKeys (c this) owner repo) 0 1 pages ->
  length pages < fuel ->
  ListKeys validateDeployKeyAPI this owner repo fuel w
  = Some (validated validateDeployKeyAPI (concat pages),
          w ++ pageRequests (sdk.ReqListDeployKeys owner repo) 0 1 (S (length pages))).
Proof.
  intros Hs Hfuel. unfold ListKeys.
  change (allPages fuel _ (newFrame w))
    with (allPages fuel (pageFn (sdk.ListDeployKeys (c this) owner repo)
                           (sdk.ReqListDeployKeys owner repo)) (newFrame w)).
  rewrite (@allPages_collects _ _ _ pages w fuel Hs Hfuel).
  unfold validated. cbn [apiObjs world].
  destruct (rangeValidate validateDeployKeyAPI (concat pages)); reflexivity.
Qed.

(** A fetch that fails on a page with items does reach the caller,
    translated, and ends the run at that fetch. *)
Lemma ListOrgs_error_with_items_is_translated validateOrganizationAPI
      (this : giteaClientImpl) (w : World) (fuel : nat) s resp e :
  sdk.ListMyOrgs (c this) (cursor 1 0) = (s, resp, Some e) ->
  elems s <> [] ->
  ListOrgs validateOrganizationAPI this (S fuel) w
  = Some ((None, handleHTTPError resp (Some e)), w ++ [sdk.ReqListMyOrgs (cursor 1 0)]).
Proof.
  intros Hf Hne. unfold ListOrgs, allPages. cbn [allPages_loop].
  change (setPage 1 (newFrame w)) with
    {| opts := cursor 1 0; apiObjs := @nil sdk.Organization; world := w |}.
  cbn [opts]. rewrite Hf. rewrite nonempty_len by assumption.
  cbn [handleHTTPError].
  destruct resp as [r |]; [destruct (sdk.StatusCode r =? 404)%Z |]; reflexivity.
Qed.

(** A fetch that fails on a page without items is taken for the end of
    the data: [ListOrgs] returns what it had collected and a nil error. *)
Lemma ListOrgs_error_without_items_is_lost
      (this : giteaClientImpl) (w : World) (fuel : nat) s resp e :
  sdk.ListMyOrgs (c this) (cursor 1 0) = (s, resp, Some e) ->
  len s = 0 ->
  forall validateOrganizationAPI,
    ListOrgs validateOrganizationAPI this (S fuel) w
    = Some ((Some [], None), w ++ [sdk.ReqListMyOrgs (cursor 1 0)]).
Proof.
  intros Hf H0 v. unfold ListOrgs.
  change (allPages (S fuel) _ (newFrame w))
    with (allPages (S fuel) (pageFn (sdk.ListMyOrgs (c this)) sdk.ReqListMyOrgs)
            (newFrame w)).
  rewrite (@allPages_first_error_lost _ _ sdk.ReqListMyOrgs w fuel s resp e Hf H0).
  reflexivity.
Qed.

(** C2. An error of a fetch must stop the driver and reach the caller in
    translated form, never be dropped.  At the first fetch of [ListOrgs]
    answered with status 500, an error and no items, the run does stop
    after that one fetch, but [ListOrgs] returns an empty list and a nil
    error, where the translation of the error is a provider failure. *)
Theorem ListOrgs_drops_error_of_failed_fetch :
  forall fuel : nat,
    sdk.ListMyOrgs Fake.broken (cursor 1 0)
    = (None, Fake.status 500, Some (RemoteError "500 Internal Server Error")) /\
    handleHTTPError (Fake.status 500) (Some (RemoteError "500 Internal Server Error"))
    = Some (ProviderFailure (RemoteError "500 Internal Server Error")) /\
    ListOrgs specValidateOrganizationAPI (Fake.impl Fake.broken false) (S fuel) []
    = Some ((Some [], None), [sdk.ReqListMyOrgs (cursor 1 0)]).
Proof.
  intros fuel. split; [reflexivity |]. split; [reflexivity |].
  exact (@ListOrgs_error_without_items_is_lost (Fake.impl Fake.broken false) [] fuel
           None (Fake.status 500) (RemoteError "500 Internal Server Error")
           eq_refl eq_refl specValidateOrganizationAPI).
Qed.

(** The translator on the other inputs: nil stays nil, and an error that
    is not a 404 is wrapped with the original kept inside. *)
Lemma handleHTTPError_nil (res : ptr sdk.Response) :
  handleHTTPError res None = None.
Proof. reflexivity. Qed.

Lemma handleHTTPError_wraps (res : ptr sdk.Response) (e : error) :
  (forall r, res = Some r -> sdk.StatusCode r <> 404%Z) ->
  exists e', handleHTTPError res (Some e) = Some e' /\ Unwrap e' = Some e.
Proof.
  intros Hno. exists (ProviderFailure e). split; [| reflexivity].
  unfold handleHTTPError. destruct res as [r |]; [| reflexivity].
  destruct (sdk.StatusCode r =? 404)%Z eqn:E; [| reflexivity].
  apply Z.eqb_eq in E. exfalso. exact (Hno r eq_refl E).
Qed.

(** C3. For response metadata with status 404 and a non-nil error, the
    translator returns the [ErrNotFound] sentinel, whatever the error
    is. *)
Theorem handleHTTPError_404_is_ErrNotFound :
  forall (res : sdk.Response) (e : error),
    sdk.StatusCode res = 404%Z ->
    handleHTTPError (Some res) (Some e) = Some ErrNotFound.
Proof.
  intros res e H. unfold handleHTTPError. rewrite H. reflexivity.
Qed.

Lemma handleHTTPError_404_is_ErrNotFound_witness :
  sdk.StatusCode {| sdk.StatusCode := 404 |} = 404%Z /\
  handleHTTPError (Some {| sdk.StatusCode := 404 |})
    (Some (RemoteError "repository does not exist"))
  = Some ErrNotFound.
Proof.
  split; [reflexivity |].
  apply (handleHTTPError_404_is_ErrNotFound
           {| sdk.StatusCode := 404 |} (RemoteError "repository does not exist")).
  reflexivity.
Defined.

(** ** Validation is all or nothing *)

Ltac list_run_cases H :=
  match type of H with
  | context [allPages ?fuel ?fn ?fr] =>
      destruct (allPages fuel fn fr) as [[[e0 |] fr0] |];
      [discriminate H | | discriminate H]
  end.

Lemma ListOrgs_rejects validateOrganizationAPI (this : giteaClientImpl)
      (fuel : nat) (w : World) :
  rejectsFirstInvalid (fun v => ListOrgs v this fuel w) validateOrganizationAPI.
Proof.
  intros objs w' Hrun Hbad. unfold ListOrgs in *.
  list_run_cases Hrun.
  rewrite rangeValidate_noValidation in Hrun.
  injection Hrun as Hobjs Hw. subst objs w'.
  destruct (rangeValidate_first_invalid validateOrganizationAPI _ Hbad)
    as (pre & bad & post & e & Heq & Hpre & Hb & Hr).
  exists pre, bad, post, e. rewrite Hr. repeat split; assumption.
Qed.

Lemma validateRepositoryObjects_rejects validateRepositoryAPI
      (objs : list sdk.Repository) :
  (exists x, In x objs /\ validateRepositoryAPI (Some x) <> None) ->
  exists pre bad post e,
    objs = pre ++ bad :: post /\
    (forall y, In y pre -> validateRepositoryAPI (Some y) = None) /\
    validateRepositoryAPI (Some bad) = Some e /\
    validateRepositoryObjects validateRepositoryAPI objs = (None, Some e).
Proof.
  intros Hbad.
  destruct (rangeValidate_first_invalid validateRepositoryAPI _ Hbad)
    as (pre & bad & post & e & Heq & Hpre & Hb & Hr).
  exists pre, bad, post, e. unfold validateRepositoryObjects. rewrite Hr.
  repeat split; assumption.
Qed.

Lemma validateRepositoryObjects_noValidation (objs : list sdk.Repository) :
  validateRepositoryObjects noValidation objs = (Some objs, None).
Proof.
  unfold validateRepositoryObjects. rewrite rangeValidate_noValidation. reflexivity.
Qed.

Lemma ListOrgRepos_rejects validateRepositoryAPI (this : giteaClientImpl)
      (org : string) (fuel : nat) (w : World) :
  rejectsFirstInvalid (fun v => ListOrgRepos v this org fuel w) validateRepositoryAPI.
Proof.
  intros objs w' Hrun Hbad. unfold ListOrgRepos in *.
  list_run_cases Hrun.
  rewrite validateRepositoryObjects_noValidation in Hrun.
  injection Hrun as Hobjs Hw. subst objs w'.
  destruct (validateRepositoryObjects_rejects validateRepositoryAPI _ Hbad)
    as (pre & bad & post & e & Heq & Hpre & Hb & Hr).
  exists pre, bad, post, e. rewrite Hr. repeat split; assumption.
Qed.

Lemma ListUserRepos_rejects validateRepositoryAPI (this : giteaClientImpl)
      (username : string) (fuel : nat) (w : World) :
  rejectsFirstInvalid (fun v => ListUserRepos v this username fuel w)
                      validateRepositoryAPI.
Proof.
  intros objs w' Hrun Hbad. unfold ListUserRepos in *.
  list_run_cases Hrun.
  rewrite validateRepositoryObjects_noValidation in Hrun.
  injection Hrun as Hobjs Hw. subst objs w'.
  destruct (validateRepositoryObjects_rejects validateRepositoryAPI _ Hbad)
    as (pre & bad & post & e & Heq & Hpre & Hb & Hr).
  exists pre, bad, post, e. rewrite Hr. repeat split; assumption.
Qed.

Lemma ListKeys_rejects validateDeployKeyAPI (this : giteaClientImpl)
      (owner repo : string) (fuel : nat) (w : World) :
  rejectsFirstInvalid (fun v => ListKeys v this owner repo fuel w) validateDeployKeyAPI.
Proof.
  intros objs w' Hrun Hbad. unfold ListKeys in *.
  list_run_cases Hrun.
  rewrite rangeValidate_noValidation in Hrun.
  injection Hrun as Hobjs Hw. subst objs w'.
  destruct (rangeValidate_first_invalid validateDeployKeyAPI _ Hbad)
    as (pre & bad & post & e & Heq & Hpre & Hb & Hr).
  exists pre, bad, post, e. rewrite Hr. repeat split; assumption.
Qed.

(** C4. Each list accessor over a contracted kind (organizations,
    repositories of an organization or of a user, deploy keys) returns
    the nil slice and the validation error of the first invalid object
    whenever the accumulated list holds an invalid object, whatever the
    other objects are; so does [validateRepositoryObjects] on any list.
    No list with an invalid object is returned. *)
Theorem list_accessors_reject_invalid_lists :
  forall (validateOrganizationAPI : ptr sdk.Organization -> option error)
         (validateRepositoryAPI : ptr sdk.Repository -> option error)
         (validateDeployKeyAPI : ptr sdk.DeployKey -> option error)
         (this : giteaClientImpl) (org username owner repo : string)
         (fuel : nat) (w : World),
    rejectsFirstInvalid (fun v => ListOrgs v this fuel w) validateOrganizationAPI /\
    rejectsFirstInvalid (fun v => ListOrgRepos v this org fuel w) validateRepositoryAPI /\
    rejectsFirstInvalid (fun v => ListUserRepos v this username fuel w)
                        validateRepositoryAPI /\
    rejectsFirstInvalid (fun v => ListKeys v this owner repo fuel w)
                        validateDeployKeyAPI /\
    (forall objs : list sdk.Repository,
        (exists x, In x objs /\ validateRepositoryAPI (Some x) <> None) ->
        exists e, validateRepositoryObjects validateRepositoryAPI objs = (None, Some e)).
Proof.
  intros vO vR vK this org username owner repo fuel w.
  split; [apply ListOrgs_rejects |].
  split; [apply ListOrgRepos_rejects |].
  split; [apply ListUserRepos_rejects |].
  split; [apply ListKeys_rejects |].
  intros objs Hbad.
  destruct (validateRepositoryObjects_rejects vR _ Hbad)
    as (pre & bad & post & e & _ & _ & _ & Hr).
  exists e. exact Hr.
Qed.

Lemma list_accessors_reject_invalid_lists_witness :
  (ListOrgs noValidation Fake.badLister 5 []
   = Some ((Some (concat Fake.orgPagesOneBad), None),
           pageRequests sdk.ReqListMyOrgs 0 1 3) /\
   exists e,
     ListOrgs specValidateOrganizationAPI Fake.badLister 5 []
     = Some ((None, Some e), pageRequests sdk.ReqListMyOrgs 0 1 3)) /\
  (ListOrgRepos noValidation Fake.badLister "o" 5 []
   = Some ((Some (concat Fake.repoPagesOneBad), None),
           pageRequests (sdk.ReqListOrgRepos "o") 0 1 3) /\
   exists e,
     ListOrgRepos specValidateRepositoryAPI Fake.badLister "o" 5 []
     = Some ((None, Some e), pageRequests (sdk.ReqListOrgRepos "o") 0 1 3)) /\
  (ListUserRepos noValidation Fake.badLister "u" 5 []
   = Some ((Some (concat Fake.repoPagesOneBad), None),
           pageRequests (sdk.ReqListUserRepos "u") 0 1 3) /\
   exists e,
     ListUserRepos specValidateRepositoryAPI Fake.badLister "u" 5 []
     = Some ((None, Some e), pageRequests (sdk.ReqListUserRepos "u") 0 1 3)) /\
  (ListKeys noValidation Fake.badLister "o" "r" 5 []
   = Some ((Some (concat Fake.keyPagesOneBad), None),
           pageRequests (sdk.ReqListDeployKeys "o" "r") 0 1 2) /\
   exists e,
     ListKeys specValidateDeployKeyAPI Fake.badLister "o" "r" 5 []
     = Some ((None, Some e), pageRequests (sdk.ReqListDeployKeys "o" "r") 0 1 2)) /\
  exists e,
    validateRepositoryObjects specValidateRepositoryAPI (concat Fake.repoPagesOneBad)
    = (None, Some e).
Proof.
  destruct (list_accessors_reject_invalid_lists
              specValidateOrganizationAPI specValidateRepositoryAPI
              specValidateDeployKeyAPI Fake.badLister "o" "u" "o" "r" 5 [])
    as (HO & HR & HU & HK & HV).
  assert (Horg : exists x, In x (concat Fake.orgPagesOneBad) /\
                           specValidateOrganizationAPI (Some x) <> None).
  { exists (Fake.org ""). split; [simpl; auto | discriminate]. }
  assert (Hrepo : exists x, In x (concat Fake.repoPagesOneBad) /\
                            specValidateRepositoryAPI (Some x) <> None).
  { exists (Fake.repo ""). split; [simpl; auto | discriminate]. }
  assert (Hkey : exists x, In x (concat Fake.keyPagesOneBad) /\
                           specValidateDeployKeyAPI (Some x) <> None).
  { exists (Fake.key "" "ssh-rsa BBBB"). split; [simpl; auto | discriminate]. }
  split; [| split; [| split; [| split]]].
  - split; [reflexivity |].
    destruct (HO _ _ eq_refl Horg) as (pre & bad & post & e & _ & _ & _ & Hr).
    exists e. exact Hr.
  - split; [reflexivity |].
    destruct (HR _ _ eq_refl Hrepo) as (pre & bad & post & e & _ & _ & _ & Hr).
    exists e. exact Hr.
  - split; [reflexivity |].
    destruct (HU _ _ eq_refl Hrepo) as (pre & bad & post & e & _ & _ & _ & Hr).
    exists e. exact Hr.
  - split; [reflexivity |].
    destruct (HK _ _ eq_refl Hkey) as (pre & bad & post & e & _ & _ & _ & Hr).
    exists e. exact Hr.
  - apply HV. exact Hrepo.
Defined.

(** ** Deleting and creating repositories *)

(** C5. With destructive actions switched off, [DeleteRepo] returns, for
    every owner and repository name, an error that wraps
    [ErrDestructiveCallDisallowed], and the world is as before: no call
    has reached the transport. *)
Theorem DeleteRepo_refused_without_transport_call :
  forall (this : giteaClientImpl) (owner repo : string) (w : World),
    destructiveActions this = false ->
    DeleteRepo this owner repo w
    = (Some (Errorf "cannot delete repository: " ErrDestructiveCallDisallowed), w) /\
    errors_Is (Errorf "cannot delete repository: " ErrDestructiveCallDisallowed)
              ErrDestructiveCallDisallowed = true /\
    snd (DeleteRepo this owner repo w) = w.
Proof.
  intros this owner repo w Hflag. unfold DeleteRepo. rewrite Hflag.
  cbn [negb]. repeat split.
Qed.

Lemma DeleteRepo_refused_without_transport_call_witness :
  destructiveActions (Fake.impl Fake.quiet false) = false /\
  DeleteRepo (Fake.impl Fake.quiet false) "fluxcd" "flux2" [sdk.ReqGetOrg "fluxcd"]
  = (Some (Errorf "cannot delete repository: " ErrDestructiveCallDisallowed),
     [sdk.ReqGetOrg "fluxcd"]).
Proof.
  split; [reflexivity |].
  apply (DeleteRepo_refused_without_transport_call
           (Fake.impl Fake.quiet false) "fluxcd" "flux2" [sdk.ReqGetOrg "fluxcd"]).
  reflexivity.
Defined.

(** With destructive actions allowed the request is sent, once, and its
    error goes through the translator. *)
Lemma DeleteRepo_allowed (this : giteaClientImpl) (owner repo : string) (w : World) :
  destructiveActions this = true ->
  DeleteRepo this owner repo w
  = (handleHTTPError (fst (sdk.DeleteRepo (c this) owner repo))
                     (snd (sdk.DeleteRepo (c this) owner repo)),
     w ++ [sdk.ReqDeleteRepo owner repo]).
Proof.
  intros Hflag. unfold DeleteRepo. rewrite Hflag. cbn [negb].
  unfold bind, call, ret.
  destruct (sdk.DeleteRepo (c this) owner repo) as [res err]. reflexivity.
Qed.

(** [validateRepositoryAPIResp] translates the error of a reply and
    validates the repository of a reply without error. *)
Lemma validateRepositoryAPIResp_translates validateRepositoryAPI
      (apiObj : ptr sdk.Repository) (res : ptr sdk.Response) (err : option error) :
  translatedAndValidated validateRepositoryAPI (apiObj, res, err)
    (validateRepositoryAPIResp validateRepositoryAPI apiObj res err).
Proof.
  unfold translatedAndValidated, validateRepositoryAPIResp. repeat split.
  - intros e ->. reflexivity.
  - intros -> e Hv. rewrite Hv. reflexivity.
  - intros -> Hv. rewrite Hv. reflexivity.
Qed.

(** C6. [CreateRepo] sends exactly one request: to the personal-account
    endpoint when the organization name is empty, to the endpoint of that
    organization otherwise.  On either route the reply goes through
    [validateRepositoryAPIResp], and what comes back is the same function
    of the reply: an error of the reply translated by [handleHTTPError]
    and no repository; without error, the validator's error and no
    repository when the repository is rejected, and the repository of the
    reply with a nil error when it is accepted. *)
Theorem CreateRepo_routes_by_organization :
  forall (validateRepositoryAPI : ptr sdk.Repository -> option error)
         (this : giteaClientImpl) (orgName : string)
         (req : sdk.CreateRepoOption) (w : World),
    (orgName = "" ->
     CreateRepo validateRepositoryAPI this orgName req w
     = (let '(apiObj, res, err) := sdk.CreateRepo (c this) req in
        validateRepositoryAPIResp validateRepositoryAPI apiObj res err,
        w ++ [sdk.ReqCreateRepo req]) /\
     translatedAndValidated validateRepositoryAPI (sdk.CreateRepo (c this) req)
       (fst (CreateRepo validateRepositoryAPI this orgName req w)))
    /\
    (orgName <> "" ->
     CreateRepo validateRepositoryAPI this orgName req w
     = (let '(apiObj, res, err) := sdk.CreateOrgRepo (c this) orgName req in
        validateRepositoryAPIResp validateRepositoryAPI apiObj res err,
        w ++ [sdk.ReqCreateOrgRepo orgName req]) /\
     translatedAndValidated validateRepositoryAPI
       (sdk.CreateOrgRepo (c this) orgName req)
       (fst (CreateRepo validateRepositoryAPI this orgName req w))).
Proof.
  intros vR this orgName req w. unfold CreateRepo, bind, call, ret. split.
  - intros ->. cbn [String.eqb negb].
    pose proof (validateRepositoryAPIResp_translates vR) as Hpath.
    destruct (sdk.CreateRepo (c this) req) as [[apiObj res] err].
    split; [reflexivity | apply Hpath].
  - intros Hne. apply String.eqb_neq in Hne. rewrite Hne. cbn [negb].
    pose proof (validateRepositoryAPIResp_translates vR) as Hpath.
    destruct (sdk.CreateOrgRepo (c this) orgName req) as [[apiObj res] err].
    split; [reflexivity | apply Hpath].
Qed.

Lemma CreateRepo_routes_by_organization_witness :
  ("" = "" /\
   CreateRepo specValidateRepositoryAPI (Fake.impl Fake.creating false) ""
     {| sdk.cr_Name := "demo" |} []
   = ((Some (Fake.repo "me/demo"), None),
      [sdk.ReqCreateRepo {| sdk.cr_Name := "demo" |}])) /\
  ("ghost" <> "" /\
   CreateRepo specValidateRepositoryAPI (Fake.impl Fake.creating false) "ghost"
     {| sdk.cr_Name := "demo" |} []
   = ((None, Some ErrNotFound),
      [sdk.ReqCreateOrgRepo "ghost" {| sdk.cr_Name := "demo" |}])) /\
  ("fluxcd" <> "" /\
   fst (CreateRepo specValidateRepositoryAPI (Fake.impl Fake.creating false) "fluxcd"
          {| sdk.cr_Name := "" |} [])
   = (None, Some (ValidationError "FullName"))).
Proof.
  destruct (CreateRepo_routes_by_organization specValidateRepositoryAPI
              (Fake.impl Fake.creating false) "" {| sdk.cr_Name := "demo" |} [])
    as [Hpersonal _].
  destruct (CreateRepo_routes_by_organization specValidateRepositoryAPI
              (Fake.impl Fake.creating false) "ghost" {| sdk.cr_Name := "demo" |} [])
    as [_ Hghost].
  destruct (CreateRepo_routes_by_organization specValidateRepositoryAPI
              (Fake.impl Fake.creating false) "fluxcd" {| sdk.cr_Name := "" |} [])
    as [_ Hbad].
  split; [| split]; split.
  - reflexivity.
  - rewrite (proj1 (Hpersonal eq_refl)). reflexivity.
  - discriminate.
  - assert (Hne : "ghost" <> "") by discriminate.
    rewrite (proj1 (Hghost Hne)). reflexivity.
  - discriminate.
  - assert (Hne : "fluxcd" <> "") by discriminate.
    destruct (Hbad Hne) as [_ Hpath].
    exact (proj1 (proj2 Hpath) eq_refl (ValidationError "FullName") eq_refl).
Defined.

(** The translation and validation path shared by both routes. *)
Lemma validateRepositoryAPIResp_error validateRepositoryAPI apiObj res e :
  validateRepositoryAPIResp validateRepositoryAPI apiObj res (Some e)
  = (None, handleHTTPError res (Some e)).
Proof. reflexivity. Qed.

Lemma validateRepositoryAPIResp_invalid validateRepositoryAPI apiObj res e :
  validateRepositoryAPI apiObj = Some e ->
  validateRepositoryAPIResp validateRepositoryAPI apiObj res None = (None, Some e).
Proof. intros H. unfold validateRepositoryAPIResp. rewrite H. reflexivity. Qed.

Lemma validateRepositoryAPIResp_valid validateRepositoryAPI apiObj res :
  validateRepositoryAPI apiObj = None ->
  validateRepositoryAPIResp validateRepositoryAPI apiObj res None = (apiObj, None).
Proof. intros H. unfold validateRepositoryAPIResp. rewrite H. reflexivity. Qed.

(** ** Team members by team name *)

Lemma scanTeams_no_match (this : giteaClientImpl) (teamName : string)
      (teams : list sdk.Team) (w : World) :
  (forall t, In t teams -> sdk.Name t <> teamName) ->
  scanTeams this teamName teams w = ((None, Some ErrNotFound), w).
Proof.
  induction teams as [| team rest IH]; intros Hno; [reflexivity |].
  cbn [scanTeams].
  assert (Hne : String.eqb (sdk.Name team) teamName = false)
    by (apply String.eqb_neq, Hno; left; reflexivity).
  rewrite Hne. apply IH. intros t Ht. apply Hno. right. assumption.
Qed.

Lemma scanTeams_first_match (this : giteaClientImpl) (teamName : string)
      (pre : list sdk.Team) (team : sdk.Team) (post : list sdk.Team) (w : World) :
  (forall t, In t pre -> sdk.Name t <> teamName) ->
  sdk.Name team = teamName ->
  scanTeams this teamName (pre ++ team :: post) w
  = (match sdk.ListTeamMembers (c this) (sdk.ID team) sdk.zeroListOptions with
     | (users, _, None) => (users, None)
     | (_, _, Some e) =>
         (None, Some (Errorf ("failed to list team " ++ teamName ++ " members: ") e))
     end,
     w ++ [sdk.ReqListTeamMembers (sdk.ID team) sdk.zeroListOptions]).
Proof.
  induction pre as [| t0 pre IH]; intros Hpre Hname.
  - cbn [app scanTeams].
    assert (Heq : String.eqb (sdk.Name team) teamName = true)
      by (apply String.eqb_eq; assumption).
    rewrite Heq. unfold bind, call, ret.
    destruct (sdk.ListTeamMembers (c this) (sdk.ID team) sdk.zeroListOptions)
      as [[users res] [e |]]; reflexivity.
  - cbn [app scanTeams].
    assert (Hne : String.eqb (sdk.Name t0) teamName = false)
      by (apply String.eqb_neq, Hpre; left; reflexivity).
    rewrite Hne. apply IH; [| assumption].
    intros t Ht. apply Hpre. right. assumption.
Qed.

(** C7, as the code has it.  When the team listing succeeds,
    [ListOrgTeamMembers] scans the teams in order for the requested name.
    With no team of that name, also in an empty list, it returns
    [ErrNotFound] and makes no further call.  Otherwise it sends one
    request for the members of the first team of that name: when that
    request succeeds it returns the members of the reply with a nil
    error, and when it fails it returns the nil slice and an error. *)
Theorem ListOrgTeamMembers_scans_teams :
  forall (this : giteaClientImpl) (orgName teamName : string) (fuel : nat)
         (w : World) (teams : slice sdk.Team) (w1 : World),
    ListOrgTeams this orgName fuel w = Some ((teams, None), w1) ->
    ((forall t, In t (elems teams) -> sdk.Name t <> teamName) ->
     ListOrgTeamMembers this orgName teamName fuel w
     = Some ((None, Some ErrNotFound), w1))
    /\
    (forall pre team post,
        elems teams = pre ++ team :: post ->
        (forall t, In t pre -> sdk.Name t <> teamName) ->
        sdk.Name team = teamName ->
        exists r,
          ListOrgTeamMembers this orgName teamName fuel w
          = Some (r, w1 ++ [sdk.ReqListTeamMembers (sdk.ID team) sdk.zeroListOptions]) /\
          (forall users res,
              sdk.ListTeamMembers (c this) (sdk.ID team) sdk.zeroListOptions
              = (users, res, None) ->
              r = (users, None)) /\
          (forall users res e,
              sdk.ListTeamMembers (c this) (sdk.ID team) sdk.zeroListOptions
              = (users, res, Some e) ->
              fst r = None /\ snd r <> None)).
Proof.
  intros this orgName teamName fuel w teams w1 Hteams.
  unfold ListOrgTeamMembers. rewrite Hteams. split.
  - intros Hno. rewrite scanTeams_no_match by assumption. reflexivity.
  - intros pre team post Heq Hpre Hname. rewrite Heq.
    rewrite scanTeams_first_match by assumption.
    eexists. split; [reflexivity |]. split.
    + intros users res Hreply. rewrite Hreply. reflexivity.
    + intros users res e Hreply. rewrite Hreply.
      split; [reflexivity | discriminate].
Qed.

Lemma ListOrgTeamMembers_scans_teams_witness :
  (ListOrgTeams (Fake.impl Fake.teamsAB false) "org" 3 []
   = Some ((Some [Fake.team 7 "A"; Fake.team 8 "B"], None),
           [sdk.ReqListOrgTeams "org" (cursor 1 0); sdk.ReqListOrgTeams "org" (cursor 2 0)])
   /\
   ListOrgTeamMembers (Fake.impl Fake.teamsAB false) "org" "C" 3 []
   = Some ((None, Some ErrNotFound),
           [sdk.ReqListOrgTeams "org" (cursor 1 0); sdk.ReqListOrgTeams "org" (cursor 2 0)])
   /\
   exists r,
     ListOrgTeamMembers (Fake.impl Fake.teamsAB false) "org" "B" 3 []
     = Some (r, [sdk.ReqListOrgTeams "org" (cursor 1 0);
                 sdk.ReqListOrgTeams "org" (cursor 2 0);
                 sdk.ReqListTeamMembers 8 sdk.zeroListOptions]) /\
     r = (Some [Fake.user "bob"], None))
  /\
  (ListOrgTeams (Fake.impl Fake.teamsNoMembers false) "org" 3 []
   = Some ((Some [Fake.team 7 "A"; Fake.team 8 "B"], None),
           [sdk.ReqListOrgTeams "org" (cursor 1 0); sdk.ReqListOrgTeams "org" (cursor 2 0)])
   /\
   exists r,
     ListOrgTeamMembers (Fake.impl Fake.teamsNoMembers false) "org" "A" 3 []
     = Some (r, [sdk.ReqListOrgTeams "org" (cursor 1 0);
                 sdk.ReqListOrgTeams "org" (cursor 2 0);
                 sdk.ReqListTeamMembers 7 sdk.zeroListOptions]) /\
     fst r = None /\ snd r <> None).
Proof.
  assert (Hteams :
    ListOrgTeams (Fake.impl Fake.teamsAB false) "org" 3 []
    = Some ((Some [Fake.team 7 "A"; Fake.team 8 "B"], None),
            [sdk.ReqListOrgTeams "org" (cursor 1 0);
             sdk.ReqListOrgTeams "org" (cursor 2 0)])) by reflexivity.
  assert (Hteams' :
    ListOrgTeams (Fake.impl Fake.teamsNoMembers false) "org" 3 []
    = Some ((Some [Fake.team 7 "A"; Fake.team 8 "B"], None),
            [sdk.ReqListOrgTeams "org" (cursor 1 0);
             sdk.ReqListOrgTeams "org" (cursor 2 0)])) by reflexivity.
  split; [split; [exact Hteams | split] | split; [exact Hteams' |]].
  - apply (proj1 (ListOrgTeamMembers_scans_teams
                    (Fake.impl Fake.teamsAB false) "org" "C" 3 [] Hteams)).
    intros t [<- | [<- | []]]; discriminate.
  - destruct (proj2 (ListOrgTeamMembers_scans_teams
                       (Fake.impl Fake.teamsAB false) "org" "B" 3 [] Hteams)
                [Fake.team 7 "A"] (Fake.team 8 "B") [] eq_refl)
      as (r & Hrun & Hok & _).
    + intros t [<- | []]. discriminate.
    + reflexivity.
    + exists r. split; [exact Hrun |].
      exact (Hok (Some [Fake.user "bob"]) Fake.ok eq_refl).
  - destruct (proj2 (ListOrgTeamMembers_scans_teams
                       (Fake.impl Fake.teamsNoMembers false) "org" "A" 3 [] Hteams')
                [] (Fake.team 7 "A") [Fake.team 8 "B"] eq_refl)
      as (r & Hrun & _ & Hfail).
    + intros t [].
    + reflexivity.
    + exists r. split; [exact Hrun |].
      exact (Hfail None (Fake.status 404) (RemoteError "404 Not Found") eq_refl).
Defined.

(** The description's wording fails where the team exists and its member
    request does not succeed: the call returns an error, not a member
    list. *)
Lemma ListOrgTeamMembers_member_request_can_fail :
  ~ teamLookupAsDescribed (Fake.impl Fake.teamsNoMembers false) "org" "A" 3 [].
Proof.
  intros H.
  destruct (H (Some [Fake.team 7 "A"; Fake.team 8 "B"])
              [sdk.ReqListOrgTeams "org" (cursor 1 0);
               sdk.ReqListOrgTeams "org" (cursor 2 0)] eq_refl) as [_ Hmatch].
  destruct (Hmatch (Fake.team 7 "A") (or_introl eq_refl) eq_refl)
    as (t' & w2 & _ & _ & Heq).
  vm_compute in Heq. discriminate Heq.
Qed.

(** ** Errors that bypass the translator *)

(** C8. Every accessor is to hand a remote error to the translator, so
    that a 404 reaches the caller as [ErrNotFound].  Three accessors do
    not: on a 404 from the remote call, [ListCommitsPage] and the
    pull-request [List] return the error of the SDK as it is, and
    [ListOrgTeamMembers] returns it under a message prefix; none of the
    three results is [ErrNotFound], which is what the translator gives. *)
Theorem accessors_return_untranslated_404 :
  handleHTTPError (Fake.status 404) (Some (RemoteError "404 Not Found"))
  = Some ErrNotFound /\
  ListCommitsPage (Fake.impl Fake.missingRepo false) "o" "r" "main" 10 1 []
  = ((None, Some (RemoteError "404 Not Found")),
     [sdk.ReqListRepoCommits "o" "r"
        {| sdk.lc_ListOptions := cursor 1 10; sdk.SHA := "main" |}]) /\
  ListOrgTeamMembers (Fake.impl Fake.teamsNoMembers false) "org" "A" 3 []
  = Some ((None,
           Some (Errorf "failed to list team A members: " (RemoteError "404 Not Found"))),
          [sdk.ReqListOrgTeams "org" (cursor 1 0); sdk.ReqListOrgTeams "org" (cursor 2 0);
           sdk.ReqListTeamMembers 7 sdk.zeroListOptions]) /\
  errors_Is (Errorf "failed to list team A members: " (RemoteError "404 Not Found"))
            ErrNotFound = false /\
  forall (Context PullRequest : Type)
         (newPullRequest : clientContext -> ptr sdk.PullRequest -> PullRequest)
         (ctx0 : Context),
    PullRequests.List newPullRequest
      {| ctx := {| ctx_c := Fake.impl Fake.missingRepo false |};
         ref := {| GetIdentity := "o"; GetRepository := "r" |} |} ctx0 []
    = ((None, Some (RemoteError "404 Not Found")),
       [sdk.ReqListRepoPullRequests "o" "r" sdk.zeroListOptions]).
Proof.
  repeat split.
Qed.

(** ** The team list of a repository *)

(** Whatever the fuel model returns, the method returns by its rule. *)
Lemma GetRepoTeams_fuel_sound (this : giteaClientImpl) (orgName repo : string)
      (w : World) (fuel : nat) :
  forall r w',
    GetRepoTeams fuel this orgName repo w = Some (r, w') ->
    GetRepoTeams_returns this orgName repo w r w'.
Proof.
  induction fuel as [| fuel IH]; intros r w' H; [discriminate |].
  cbn [GetRepoTeams] in H.
  destruct (GetRepoTeams fuel this orgName repo w) as [[[apiObjs [e |]] w0] |];
    try discriminate; injection H as <- <-.
  - eapply GetRepoTeams_inner_err. apply IH. reflexivity.
  - apply GetRepoTeams_inner_ok. apply IH. reflexivity.
Qed.

(** C9. A call to [GetRepoTeams] is to return the team list of the
    repository or an error.  The method calls itself on the same receiver
    with the same arguments before anything else, so no call returns: no
    depth of nested calls gives a result, and the rule by which the
    method returns has no finite derivation. *)
Theorem GetRepoTeams_never_returns :
  forall (this : giteaClientImpl) (orgName repo : string) (w : World),
    (forall fuel : nat, GetRepoTeams fuel this orgName repo w = None) /\
    (forall r w', ~ GetRepoTeams_returns this orgName repo w r w').
Proof.
  intros this orgName repo w. split.
  - induction fuel as [| fuel IH]; [reflexivity |].
    cbn [GetRepoTeams]. rewrite IH. reflexivity.
  - intros r w' H. induction H; assumption.
Qed.

(** ** Creating a pull request *)

(** C10. Two calls of [Create] on one client with the same title have the
    same outcome and send the same request, whatever their branch, base
    branch and description are: the request carries the title and leaves
    every other option at its zero value. *)
Theorem Create_request_depends_on_title_only :
  forall (Context PullRequest : Type)
         (newPullRequest : clientContext -> ptr sdk.PullRequest -> PullRequest)
         (this : PullRequestClient) (ctx1 ctx2 : Context)
         (title branch1 baseBranch1 description1 branch2 baseBranch2 description2 : string)
         (w : World),
    PullRequests.Create newPullRequest this ctx1 title branch1 baseBranch1 description1 w
    = PullRequests.Create newPullRequest this ctx2 title branch2 baseBranch2 description2 w
    /\
    snd (PullRequests.Create newPullRequest this ctx1 title
           branch1 baseBranch1 description1 w)
    = w ++ [sdk.ReqCreatePullRequest (GetIdentity (ref this)) (GetRepository (ref this))
              {| sdk.Head := ""; sdk.Base := ""; sdk.pr_Title := title; sdk.Body := "" |}].
Proof.
  intros. split; [reflexivity |].
  unfold PullRequests.Create, bind, call, ret.
  destruct (sdk.CreatePullRequest _ _ _ _) as [[pr res] [e |]]; reflexivity.
Qed.

(** * Further properties of the wrapper *)

(** ** Validated lists *)

Lemma rangeValidate_None_iff {A} (validate : ptr A -> option error) (objs : list A) :
  rangeValidate validate objs = None <->
  forall x, In x objs -> validate (Some x) = None.
Proof.
  split; [| apply rangeValidate_all_valid].
  induction objs as [| x rest IH]; intros H y Hy; [destruct Hy |].
  simpl in H. destruct (validate (Some x)) as [e |] eqn:Hx; [discriminate |].
  destruct Hy as [<- | Hy]; [assumption | apply IH; assumption].
Qed.

(** X1. [validateRepositoryObjects] never filters: it returns its input
    list unchanged with a nil error exactly when every object passes the
    validator, and in every other case the nil list with an error. *)
Theorem validateRepositoryObjects_all_or_nothing :
  forall (validateRepositoryAPI : ptr sdk.Repository -> option error)
         (objs : list sdk.Repository),
    (validateRepositoryObjects validateRepositoryAPI objs = (Some objs, None) <->
     forall x, In x objs -> validateRepositoryAPI (Some x) = None) /\
    (forall l e,
        validateRepositoryObjects validateRepositoryAPI objs = (l, e) ->
        (l = Some objs /\ e = None) \/ (l = None /\ e <> None)).
Proof.
  intros vR objs. unfold validateRepositoryObjects.
  destruct (rangeValidate vR objs) as [e0 |] eqn:Hr; split.
  - split; [discriminate |].
    intros Hall. apply rangeValidate_None_iff in Hall. congruence.
  - intros l e H. injection H as <- <-. right. split; [reflexivity | discriminate].
  - split; [| reflexivity]. intros _. apply rangeValidate_None_iff. assumption.
  - intros l e H. injection H as <- <-. left. split; reflexivity.
Qed.

Lemma validated_shape {A} (validate : ptr A -> option error) (objs : list A) s err :
  validated validate objs = (s, err) ->
  match err with
  | None => exists l, s = Some l /\ forall x, In x l -> validate (Some x) = None
  | Some _ => s = None
  end.
Proof.
  unfold validated. destruct (rangeValidate validate objs) as [e |] eqn:Hr;
    intros H; injection H as <- <-; [reflexivity |].
  exists objs. split; [reflexivity |]. apply rangeValidate_None_iff. assumption.
Qed.

Ltac list_result H :=
  match type of H with
  | context [allPages ?fuel ?fn ?fr] =>
      destruct (allPages fuel fn fr) as [[[e0 |] fr0] |]; [| | discriminate H]
  end.

(** X2. What a list accessor returns is never half a result: with a nil
    error it is a non-nil list, every object of which passes the
    validator of its kind ([ListOrgTeams] validates nothing); with an
    error it is the nil slice. *)
Theorem list_accessors_return_validated_lists :
  forall (validateOrganizationAPI : ptr sdk.Organization -> option error)
         (validateRepositoryAPI : ptr sdk.Repository -> option error)
         (validateDeployKeyAPI : ptr sdk.DeployKey -> option error)
         (this : giteaClientImpl) (orgName username owner repo : string)
         (fuel : nat) (w : World),
    returnsValidated (ListOrgs validateOrganizationAPI this fuel w)
                     validateOrganizationAPI /\
    returnsValidated (ListOrgTeams this orgName fuel w) noValidation /\
    returnsValidated (ListOrgRepos validateRepositoryAPI this orgName fuel w)
                     validateRepositoryAPI /\
    returnsValidated (ListUserRepos validateRepositoryAPI this username fuel w)
                     validateRepositoryAPI /\
    returnsValidated (ListKeys validateDeployKeyAPI this owner repo fuel w)
                     validateDeployKeyAPI.
Proof.
  intros vO vR vK this orgName username owner repo fuel w.
  split; [| split; [| split; [| split]]]; intros s err w' H.
  - unfold ListOrgs in H. list_result H.
    + injection H as <- <- _. reflexivity.
    + apply (validated_shape vO (apiObjs fr0)). unfold validated.
      destruct (rangeValidate vO (apiObjs fr0)); injection H as <- <- _; reflexivity.
  - unfold ListOrgTeams in H. list_result H.
    + injection H as <- <- _. reflexivity.
    + injection H as <- <- _. exists (apiObjs fr0). split; reflexivity.
  - unfold ListOrgRepos in H. list_result H.
    + injection H as <- <- _. reflexivity.
    + apply (validated_shape vR (apiObjs fr0)).
      injection H as H _. exact H.
  - unfold ListUserRepos in H. list_result H.
    + injection H as <- <- _. reflexivity.
    + apply (validated_shape vR (apiObjs fr0)).
      injection H as H _. exact H.
  - unfold ListKeys in H. list_result H.
    + injection H as <- <- _. reflexivity.
    + apply (validated_shape vK (apiObjs fr0)). unfold validated.
      destruct (rangeValidate vK (apiObjs fr0)); injection H as <- <- _; reflexivity.
Qed.

Lemma list_accessors_return_validated_lists_witness :
  ListOrgs specValidateOrganizationAPI (Fake.impl Fake.listing false) 4 []
  = Some ((Some (concat Fake.orgPages), None), pageRequests sdk.ReqListMyOrgs 0 1 3) /\
  exists objs,
    Some (concat Fake.orgPages) = Some objs /\
    forall x, In x objs -> specValidateOrganizationAPI (Some x) = None.
Proof.
  assert (Hrun : ListOrgs specValidateOrganizationAPI (Fake.impl Fake.listing false) 4 []
                 = Some ((Some (concat Fake.orgPages), None),
                         pageRequests sdk.ReqListMyOrgs 0 1 3)) by reflexivity.
  split; [exact Hrun |].
  exact (proj1 (list_accessors_return_validated_lists
                  specValidateOrganizationAPI specValidateRepositoryAPI
                  specValidateDeployKeyAPI (Fake.impl Fake.listing false)
                  "o" "u" "o" "r" 4 []) _ _ _ Hrun).
Defined.

(** ** Single objects *)

Lemma translate_then_validate_accepts {A} (validate : ptr A -> option error)
      (apiObj : ptr A) (res : ptr sdk.Response) (err : option error) :
  objectOnlyIfAccepted (apiObj, res, err) validate
    (match err with
     | Some _ => (None, handleHTTPError res err)
     | None =>
         match validate apiObj with
         | Some e => (None, Some e)
         | None => (apiObj, None)
         end
     end).
Proof.
  unfold objectOnlyIfAccepted. split.
  - intros o Ho. destruct err as [e |]; [discriminate Ho |].
    destruct (validate apiObj) as [e |] eqn:Hv; [discriminate Ho |].
    simpl in Ho. subst apiObj. repeat split; assumption.
  - intros -> Hv. rewrite Hv. reflexivity.
Qed.

(** X3. [GetOrg], [GetRepo], [UpdateRepo] and [CreateKey] each send one
    request.  An object comes back only when the reply had no error, and
    it is then the object of the reply and has passed the validator: no
    object is returned beside an error, and none that was not validated.
    A reply without error whose object passes the validator is returned
    unchanged. *)
Theorem single_object_accessors_return_accepted_objects :
  forall (validateOrganizationAPI : ptr sdk.Organization -> option error)
         (validateRepositoryAPI : ptr sdk.Repository -> option error)
         (validateDeployKeyAPI : ptr sdk.DeployKey -> option error)
         (this : giteaClientImpl) (orgName owner repo : string)
         (edit : sdk.EditRepoOption) (key : sdk.DeployKey) (w : World),
    (objectOnlyIfAccepted (sdk.GetOrg (c this) orgName) validateOrganizationAPI
       (fst (GetOrg validateOrganizationAPI this orgName w)) /\
     snd (GetOrg validateOrganizationAPI this orgName w) = w ++ [sdk.ReqGetOrg orgName])
    /\
    (objectOnlyIfAccepted (sdk.GetRepo (c this) owner repo) validateRepositoryAPI
       (fst (GetRepo validateRepositoryAPI this owner repo w)) /\
     snd (GetRepo validateRepositoryAPI this owner repo w)
     = w ++ [sdk.ReqGetRepo owner repo])
    /\
    (objectOnlyIfAccepted (sdk.EditRepo (c this) owner repo edit) validateRepositoryAPI
       (fst (UpdateRepo validateRepositoryAPI this owner repo edit w)) /\
     snd (UpdateRepo validateRepositoryAPI this owner repo edit w)
     = w ++ [sdk.ReqEditRepo owner repo edit])
    /\
    (objectOnlyIfAccepted
       (sdk.CreateDeployKey (c this) owner repo
          {| sdk.ck_Title := sdk.Title key; sdk.ck_Key := sdk.Key key;
             sdk.ck_ReadOnly := sdk.ReadOnly key |})
       validateDeployKeyAPI
       (fst (CreateKey validateDeployKeyAPI this owner repo key w)) /\
     snd (CreateKey validateDeployKeyAPI this owner repo key w)
     = w ++ [sdk.ReqCreateDeployKey owner repo
               {| sdk.ck_Title := sdk.Title key; sdk.ck_Key := sdk.Key key;
                  sdk.ck_ReadOnly := sdk.ReadOnly key |}]).
Proof.
  intros vO vR vK this orgName owner repo edit key w.
  split; [| split; [| split]].
  - unfold GetOrg, bind, call, ret.
    pose proof (translate_then_validate_accepts vO) as Hacc.
    destruct (sdk.GetOrg (c this) orgName) as [[apiObj res] err].
    specialize (Hacc apiObj res err).
    destruct err as [e |]; [split; [exact Hacc | reflexivity] |].
    destruct (vO apiObj); split; try exact Hacc; reflexivity.
  - unfold GetRepo, bind, call, ret.
    pose proof (translate_then_validate_accepts vR) as Hacc.
    destruct (sdk.GetRepo (c this) owner repo) as [[apiObj res] err].
    split; [apply Hacc | reflexivity].
  - unfold UpdateRepo, bind, call, ret.
    pose proof (translate_then_validate_accepts vR) as Hacc.
    destruct (sdk.EditRepo (c this) owner repo edit) as [[apiObj res] err].
    split; [apply Hacc | reflexivity].
  - unfold CreateKey, bind, call, ret.
    pose proof (translate_then_validate_accepts vK) as Hacc.
    destruct (sdk.CreateDeployKey _ _ _ _) as [[apiObj res] err].
    specialize (Hacc apiObj res err).
    destruct err as [e |]; [split; [exact Hacc | reflexivity] |].
    destruct (vK apiObj); split; try exact Hacc; reflexivity.
Qed.

(** ** Deleting a repository *)

Lemma app_one_neq {A} (w : list A) (r : A) : w ++ [r] <> w.
Proof.
  intros H. apply (f_equal (@length A)) in H.
  rewrite length_app in H. simpl in H. lia.
Qed.

(** X4. [DeleteRepo] reaches the transport exactly when destructive
    actions are allowed: then it sends the one delete request for that
    owner and repository, and otherwise the world stays as it was. *)
Theorem DeleteRepo_calls_transport_iff_allowed :
  forall (this : giteaClientImpl) (owner repo : string) (w : World),
    (snd (DeleteRepo this owner repo w) = w ++ [sdk.ReqDeleteRepo owner repo] <->
     destructiveActions this = true) /\
    (snd (DeleteRepo this owner repo w) = w <-> destructiveActions this = false).
Proof.
  intros this owner repo w. unfold DeleteRepo, bind, call, ret.
  destruct (destructiveActions this); cbn [negb].
  - destruct (sdk.DeleteRepo (c this) owner repo) as [res err]. cbn [snd].
    split; split; try reflexivity; try discriminate.
    intros H. exfalso. exact (@app_one_neq _ _ _ H).
  - cbn [snd]. split; split; try reflexivity; try discriminate.
    intros H. exfalso. symmetry in H. exact (@app_one_neq _ _ _ H).
Qed.

(** ** Arguments that are not sent *)

(** X5. [AddTeam] does not look at the permission it is given: the
    request names organization, repository and team only, and two calls
    that differ in the permission alone have the same outcome. *)
Theorem AddTeam_ignores_permission :
  forall (this : giteaClientImpl) (orgName repo teamName : string)
         (permission1 permission2 : string) (w : World),
    AddTeam this orgName repo teamName permission1 w
    = AddTeam this orgName repo teamName permission2 w /\
    snd (AddTeam this orgName repo teamName permission1 w)
    = w ++ [sdk.ReqAddRepoTeam orgName repo teamName].
Proof.
  intros. split; [reflexivity |].
  unfold AddTeam, bind, call, ret.
  destruct (sdk.AddRepoTeam (c this) orgName repo teamName) as [res err].
  reflexivity.
Qed.

(** X6. [CreateKey] sends the title, the key material and the read-only
    flag of the key it is given and nothing else of it: two keys that
    agree on these three have the same outcome. *)
Theorem CreateKey_sends_title_key_readonly_only :
  forall (validateDeployKeyAPI : ptr sdk.DeployKey -> option error)
         (this : giteaClientImpl) (owner repo : string)
         (key1 key2 : sdk.DeployKey) (w : World),
    sdk.Title key1 = sdk.Title key2 ->
    sdk.Key key1 = sdk.Key key2 ->
    sdk.ReadOnly key1 = sdk.ReadOnly key2 ->
    CreateKey validateDeployKeyAPI this owner repo key1 w
    = CreateKey validateDeployKeyAPI this owner repo key2 w.
Proof.
  intros vK this owner repo key1 key2 w Ht Hk Hr.
  unfold CreateKey. rewrite Ht, Hk, Hr. reflexivity.
Qed.

Lemma CreateKey_sends_title_key_readonly_only_witness :
  CreateKey specValidateDeployKeyAPI (Fake.impl Fake.quiet false) "o" "r"
    {| sdk.KeyID := 1; sdk.Key := "ssh-rsa AAAA"; sdk.Title := "ci"; sdk.ReadOnly := true |} []
  = CreateKey specValidateDeployKeyAPI (Fake.impl Fake.quiet false) "o" "r"
      {| sdk.KeyID := 99; sdk.Key := "ssh-rsa AAAA"; sdk.Title := "ci"; sdk.ReadOnly := true |} [].
Proof.
  apply (CreateKey_sends_title_key_readonly_only specValidateDeployKeyAPI
           (Fake.impl Fake.quiet false) "o" "r"
           {| sdk.KeyID := 1; sdk.Key := "ssh-rsa AAAA"; sdk.Title := "ci";
              sdk.ReadOnly := true |}
           {| sdk.KeyID := 99; sdk.Key := "ssh-rsa AAAA"; sdk.Title := "ci";
              sdk.ReadOnly := true |} []); reflexivity.
Defined.

(** ** Team permissions *)

(** X7. [GetTeamPermissions] reads the permission through the team
    pointer of the reply without a nil check: it panics exactly when the
    reply has neither a team nor an error.  With a team and no error it
    returns that team's permission, and with an error no permission. *)
Theorem GetTeamPermissions_panics_iff_nil_team :
  forall (this : giteaClientImpl) (orgName repo teamName : string) (w : World),
    let '(apiObj, _, err) := sdk.CheckRepoTeam (c this) orgName repo teamName in
    ((exists msg, fst (GetTeamPermissions this orgName repo teamName w) = Panicked _ msg)
     <-> (apiObj = None /\ err = None)) /\
    (forall team, apiObj = Some team -> err = None ->
       fst (GetTeamPermissions this orgName repo teamName w)
       = Returned (Some (sdk.Permission team), None)) /\
    (forall e, err = Some e ->
       exists e', fst (GetTeamPermissions this orgName repo teamName w)
                  = Returned (None, e')).
Proof.
  intros this orgName repo teamName w.
  unfold GetTeamPermissions, bind, call, ret.
  destruct (sdk.CheckRepoTeam (c this) orgName repo teamName)
    as [[[team |] res] [e |]]; cbn [fst].
  - split; [split; [intros [msg H]; discriminate H | intros [H _]; discriminate H] |].
    split; [intros t _ He; discriminate He |].
    intros e0 _. eexists. reflexivity.
  - split; [split; [intros [msg H]; discriminate H | intros [H _]; discriminate H] |].
    split; [intros t Ht _; injection Ht as <-; reflexivity |].
    intros e0 He. discriminate He.
  - split; [split; [intros [msg H]; discriminate H | intros [_ H]; discriminate H] |].
    split; [intros t Ht _; discriminate Ht |].
    intros e0 _. eexists. reflexivity.
  - split; [split; [intros _; split; reflexivity | intros _; eexists; reflexivity] |].
    split; [intros t Ht _; discriminate Ht |].
    intros e0 He. discriminate He.
Qed.

(** ** The not-found sentinel of the team lookup *)

Lemma scanTeams_ErrNotFound_iff (this : giteaClientImpl) (teamName : string)
      (teams : list sdk.Team) (w : World) :
  snd (fst (scanTeams this teamName teams w)) = Some ErrNotFound <->
  forall t, In t teams -> sdk.Name t <> teamName.
Proof.
  induction teams as [| team rest IH].
  - split; [intros _ t [] | reflexivity].
  - cbn [scanTeams].
    destruct (String.eqb (sdk.Name team) teamName) eqn:E.
    + apply String.eqb_eq in E. split.
      * unfold bind, call, ret.
        destruct (sdk.ListTeamMembers (c this) (sdk.ID team) sdk.zeroListOptions)
          as [[users res] [e |]]; intros H; discriminate H.
      * intros Hno. exfalso. exact (Hno team (or_introl eq_refl) E).
    + apply String.eqb_neq in E. rewrite IH. split.
      * intros Hno t [<- | Ht]; [assumption | apply Hno; assumption].
      * intros Hno t Ht. apply Hno. right. assumption.
Qed.

(** X8. When the team listing succeeds, [ListOrgTeamMembers] returns, and
    the error it returns is the sentinel [ErrNotFound] itself exactly
    when no listed team has the requested name: a failure of the member
    request never shows as that sentinel, it comes wrapped. *)
Theorem ListOrgTeamMembers_ErrNotFound_iff_no_such_team :
  forall (this : giteaClientImpl) (orgName teamName : string) (fuel : nat)
         (w : World) (teams : slice sdk.Team) (w1 : World),
    ListOrgTeams this orgName fuel w = Some ((teams, None), w1) ->
    exists r w2,
      ListOrgTeamMembers this orgName teamName fuel w = Some (r, w2) /\
      (snd r = Some ErrNotFound <->
       forall t, In t (elems teams) -> sdk.Name t <> teamName).
Proof.
  intros this orgName teamName fuel w teams w1 Hteams.
  unfold ListOrgTeamMembers. rewrite Hteams.
  pose proof (scanTeams_ErrNotFound_iff this teamName (elems teams) w1) as Hiff.
  destruct (scanTeams this teamName (elems teams) w1) as [r w2].
  exists r, w2. split; [reflexivity | exact Hiff].
Qed.

Lemma ListOrgTeamMembers_ErrNotFound_iff_no_such_team_witness :
  ListOrgTeams (Fake.impl Fake.teamsNoMembers false) "org" 3 []
  = Some ((Some [Fake.team 7 "A"; Fake.team 8 "B"], None),
          [sdk.ReqListOrgTeams "org" (cursor 1 0); sdk.ReqListOrgTeams "org" (cursor 2 0)])
  /\
  exists r w2,
    ListOrgTeamMembers (Fake.impl Fake.teamsNoMembers false) "org" "A" 3 [] = Some (r, w2) /\
    (snd r = Some ErrNotFound <->
     forall t, In t [Fake.team 7 "A"; Fake.team 8 "B"] -> sdk.Name t <> "A").
Proof.
  assert (Hteams :
    ListOrgTeams (Fake.impl Fake.teamsNoMembers false) "org" 3 []
    = Some ((Some [Fake.team 7 "A"; Fake.team 8 "B"], None),
            [sdk.ReqListOrgTeams "org" (cursor 1 0);
             sdk.ReqListOrgTeams "org" (cursor 2 0)])) by reflexivity.
  split; [exact Hteams |].
  exact (ListOrgTeamMembers_ErrNotFound_iff_no_such_team
           (Fake.impl Fake.teamsNoMembers false) "org" "A" 3 [] Hteams).
Defined.

(** ** Listing pull requests *)

Section PullRequestList.

Variable Context : Type.
Variable PullRequest : Type.
Variable newPullRequest : clientContext -> ptr sdk.PullRequest -> PullRequest.

Lemma setAt_after_filled (filled : list (ptr PullRequest)) (n : nat) (v : ptr PullRequest) :
  PullRequests.setAt (filled ++ repeat None (S n)) (length filled) v
  = Some ((filled ++ [v]) ++ repeat None n).
Proof.
  induction filled as [| x rest IH]; [reflexivity |].
  cbn [app length PullRequests.setAt]. rewrite IH. reflexivity.
Qed.

(** The index loop, started behind the slots already filled, fills the
    remaining slots in order and stays inside the slice. *)
Lemma fillRequests_fills (cc : clientContext) (prs : list sdk.PullRequest) :
  forall filled : list (ptr PullRequest),
    PullRequests.fillRequests newPullRequest cc (length filled) prs
      (filled ++ repeat None (length prs))
    = Some (filled ++ map (fun pr => Some (newPullRequest cc (Some pr))) prs).
Proof.
  induction prs as [| pr rest IH]; intros filled.
  - reflexivity.
  - cbn [PullRequests.fillRequests length map].
    rewrite setAt_after_filled.
    replace (S (length filled))
      with (length (filled ++ [Some (newPullRequest cc (Some pr))]))
      by (rewrite length_app; simpl; lia).
    rewrite IH. rewrite <- app_assoc. reflexivity.
Qed.

(** X9. The slice that [List] makes with the length of the reply and
    fills by index never takes an index out of range and has no nil entry
    left: it holds one pull request for each one of the reply, in the
    order of the reply, and an empty or nil reply gives an empty non-nil
    slice.  On an error of the request the slice is nil, whatever the
    reply carries beside the error, and the error is returned with it. *)
Theorem List_fills_every_slot :
  forall (this : PullRequestClient) (ctx0 : Context) (w : World),
    PullRequests.ListIndexed newPullRequest this ctx0 w
    = (Returned
         (match fst (fst (PullRequests.List newPullRequest this ctx0 w)) with
          | Some requests => Some (map Some requests)
          | None => None
          end,
          snd (fst (PullRequests.List newPullRequest this ctx0 w))),
       snd (PullRequests.List newPullRequest this ctx0 w)) /\
    (snd (fst (PullRequests.List newPullRequest this ctx0 w)) = None ->
     fst (fst (PullRequests.List newPullRequest this ctx0 w))
     = Some (map (fun pr => newPullRequest (ctx this) (Some pr))
               (elems (fst (fst (sdk.ListRepoPullRequests (Client (ctx_c (ctx this)))
                                   (GetIdentity (ref this)) (GetRepository (ref this))
                                   sdk.zeroListOptions)))))) /\
    (forall prs res e,
        sdk.ListRepoPullRequests (Client (ctx_c (ctx this)))
          (GetIdentity (ref this)) (GetRepository (ref this)) sdk.zeroListOptions
        = (prs, res, Some e) ->
        fst (PullRequests.List newPullRequest this ctx0 w) = (None, Some e) /\
        fst (PullRequests.ListIndexed newPullRequest this ctx0 w)
        = Returned (None, Some e)) /\
    (forall e, snd (fst (PullRequests.List newPullRequest this ctx0 w)) = Some e ->
               fst (fst (PullRequests.List newPullRequest this ctx0 w)) = None).
Proof.
  intros this ctx0 w.
  unfold PullRequests.ListIndexed, PullRequests.List, bind, call, ret.
  destruct (sdk.ListRepoPullRequests _ _ _ _) as [[prs res] [e |]]; cbn [fst snd].
  - split; [reflexivity |]. split; [discriminate |]. split.
    + intros prs0 res0 e0 H. injection H as _ _ <-. split; reflexivity.
    + intros e0 _. reflexivity.
  - rewrite len_elems.
    pose proof (fillRequests_fills (ctx this) (elems prs) []) as Hfill.
    cbn [length app] in Hfill. rewrite Hfill.
    cbn [fst snd]. rewrite map_map.
    split; [reflexivity |]. split; [reflexivity |]. split.
    + intros prs0 res0 e0 H. discriminate H.
    + intros e0 H. discriminate H.
Qed.

(** X10. Each method of the pull-request client sends exactly one
    request, addressed to the owner and repository of its reference, and
    returns the error of the SDK as it got it: nil when the SDK's is nil,
    and otherwise that very error. *)
Theorem PullRequestClient_passes_errors_through :
  forall (this : PullRequestClient) (ctx0 : Context) (number : Z)
         (title branch baseBranch description mergeMethod message : string)
         (w : World),
    let owner := GetIdentity (ref this) in
    let repo := GetRepository (ref this) in
    let cl := Client (ctx_c (ctx this)) in
    (snd (fst (PullRequests.List newPullRequest this ctx0 w))
     = snd (sdk.ListRepoPullRequests cl owner repo sdk.zeroListOptions) /\
     snd (PullRequests.List newPullRequest this ctx0 w)
     = w ++ [sdk.ReqListRepoPullRequests owner repo sdk.zeroListOptions]) /\
    (snd (fst (PullRequests.Create newPullRequest this ctx0
                 title branch baseBranch description w))
     = snd (sdk.CreatePullRequest cl owner repo
              {| sdk.Head := ""; sdk.Base := ""; sdk.pr_Title := title; sdk.Body := "" |}) /\
     exists opt,
       snd (PullRequests.Create newPullRequest this ctx0
              title branch baseBranch description w)
       = w ++ [sdk.ReqCreatePullRequest owner repo opt]) /\
    (snd (fst (PullRequests.Get newPullRequest this ctx0 number w))
     = snd (sdk.GetPullRequest cl owner repo number) /\
     snd (PullRequests.Get newPullRequest this ctx0 number w)
     = w ++ [sdk.ReqGetPullRequest owner repo number]) /\
    (fst (PullRequests.Merge this ctx0 number mergeMethod message w)
     = snd (sdk.MergePullRequest cl owner repo number
              {| sdk.Style := mergeMethod; sdk.Message := message |}) /\
     snd (PullRequests.Merge this ctx0 number mergeMethod message w)
     = w ++ [sdk.ReqMergePullRequest owner repo number
               {| sdk.Style := mergeMethod; sdk.Message := message |}]).
Proof.
  intros this ctx0 number title branch baseBranch description mergeMethod message w.
  cbv zeta.
  unfold PullRequests.List, PullRequests.Create, PullRequests.Get, PullRequests.Merge,
    bind, call, ret.
  split; [| split; [| split]].
  - destruct (sdk.ListRepoPullRequests _ _ _ _) as [[prs res] [e |]];
      split; reflexivity.
  - destruct (sdk.CreatePullRequest _ _ _ _) as [[pr res] [e |]];
      (split; [reflexivity | eexists; reflexivity]).
  - destruct (sdk.GetPullRequest _ _ _ _) as [[pr res] [e |]]; split; reflexivity.
  - destruct (sdk.MergePullRequest _ _ _ _ _) as [[merged res] [e |]];
      split; reflexivity.
Qed.

End PullRequestList.

(** ** What one round and one run of a list accessor do to the frame *)

Section Rounds.

Context {A : Type}.
Variable fetch : sdk.ListOptions -> sdk.Reply (slice A).
Variable req : sdk.ListOptions -> sdk.Request.

Lemma pageFn_frame (fr : Frame A) :
  opts (snd (pageFn fetch req fr)) = opts fr /\
  world (snd (pageFn fetch req fr)) = world fr ++ [req (opts fr)] /\
  apiObjs (snd (pageFn fetch req fr))
  = apiObjs fr ++ elems (fst (fst (fetch (opts fr)))).
Proof.
  unfold pageFn.
  destruct (fetch (opts fr)) as [[pageObjs resp] listErr]. cbn [fst].
  destruct (0 <? len pageObjs)%nat eqn:E; cbn [snd appended called opts world apiObjs].
  - repeat split.
  - apply Nat.ltb_ge in E.
    rewrite (len_zero_elems pageObjs) by lia.
    rewrite app_nil_r. repeat split.
Qed.

(** X11. One round of the page callback of the list accessors sends
    exactly one request, for the page the cursor stands on, leaves the
    cursor alone, and extends the accumulator by exactly the items of the
    reply, keeping what was there.  It hands response and error of the
    reply on when the reply has items, and (nil, nil) when it has none. *)
Theorem pageFn_one_request_appends_page :
  forall fr : Frame A,
    opts (snd (pageFn fetch req fr)) = opts fr /\
    world (snd (pageFn fetch req fr)) = world fr ++ [req (opts fr)] /\
    apiObjs (snd (pageFn fetch req fr))
    = apiObjs fr ++ elems (fst (fst (fetch (opts fr)))) /\
    fst (pageFn fetch req fr)
    = match elems (fst (fst (fetch (opts fr)))) with
      | [] => (None, None)
      | _ :: _ => (snd (fst (fetch (opts fr))), snd (fetch (opts fr)))
      end.
Proof.
  intros fr. destruct (pageFn_frame fr) as (Ho & Hw & Ha).
  repeat split; try assumption.
  unfold pageFn. destruct (fetch (opts fr)) as [[pageObjs resp] listErr].
  cbn [fst snd]. rewrite len_elems.
  destruct (elems pageObjs); reflexivity.
Qed.

(** A run of the driver on the page callback, when it returns, has sent
    at least one request, only requests of the endpoint, and has only
    added to the accumulator. *)
Lemma allPages_loop_sends_own_requests (fuel : nat) :
  forall (fr : Frame A) (e : option error) (fr' : Frame A),
    allPages_loop fuel (pageFn fetch req) fr = Some (e, fr') ->
    exists reqs more,
      world fr' = world fr ++ reqs /\ reqs <> [] /\
      Forall (fun r => exists o, r = req o) reqs /\
      apiObjs fr' = apiObjs fr ++ more.
Proof.
  induction fuel as [| fuel IH]; intros fr e fr' H; [discriminate H |].
  cbn [allPages_loop] in H.
  destruct (pageFn_frame fr) as (Ho & Hw & Ha).
  destruct (pageFn fetch req fr) as [[resp err] fr1]. cbn [snd] in Ho, Hw, Ha.
  assert (Hone : exists reqs more,
             world fr1 = world fr ++ reqs /\ reqs <> [] /\
             Forall (fun r => exists o, r = req o) reqs /\
             apiObjs fr1 = apiObjs fr ++ more).
  { exists [req (opts fr)], (elems (fst (fst (fetch (opts fr))))).
    repeat split; try assumption; [discriminate |].
    constructor; [eexists; reflexivity | constructor]. }
  destruct err as [e1 |]; [injection H as _ <-; exact Hone |].
  destruct resp as [r |]; [| injection H as _ <-; exact Hone].
  apply IH in H. destruct H as (reqs & more & Hw' & _ & Hall & Ha').
  cbn [setPage world apiObjs] in Hw', Ha'.
  exists (req (opts fr) :: reqs), (elems (fst (fst (fetch (opts fr)))) ++ more).
  repeat split.
  - rewrite Hw', Hw, <- app_assoc. reflexivity.
  - discriminate.
  - constructor; [eexists; reflexivity | assumption].
  - rewrite Ha', Ha, <- app_assoc. reflexivity.
Qed.

Lemma allPages_sends_own_requests (fuel : nat) (w : World)
      (e : option error) (fr' : Frame A) :
  allPages fuel (pageFn fetch req) (newFrame w) = Some (e, fr') ->
  exists reqs,
    world fr' = w ++ reqs /\ reqs <> [] /\ Forall (fun r => exists o, r = req o) reqs.
Proof.
  intros H. unfold allPages in H.
  apply allPages_loop_sends_own_requests in H.
  destruct H as (reqs & more & Hw & Hne & Hall & _).
  exists reqs. repeat split; assumption.
Qed.

End Rounds.

Ltac own_requests H fetch req :=
  match type of H with
  | context [allPages ?fuel _ (newFrame ?w)] =>
      change (allPages fuel _ (newFrame w))
        with (allPages fuel (pageFn fetch req) (newFrame w)) in H;
      let Hrun := fresh "Hrun" in
      destruct (allPages fuel (pageFn fetch req) (newFrame w))
        as [[e0 fr0] |] eqn:Hrun; [| discriminate H];
      apply allPages_sends_own_requests in Hrun
  end.

(** X12. A list accessor that returns has reached the transport at least
    once and has sent nothing but the list request of its own endpoint,
    for its own organization, user or repository: listing never creates,
    changes or deletes.  (The driver is the one described for this
    package: it only ever calls the page callback.) *)
Theorem list_accessors_send_only_their_list_request :
  forall (validateOrganizationAPI : ptr sdk.Organization -> option error)
         (validateRepositoryAPI : ptr sdk.Repository -> option error)
         (validateDeployKeyAPI : ptr sdk.DeployKey -> option error)
         (this : giteaClientImpl) (orgName username owner repo : string)
         (fuel : nat) (w : World),
    onlySends (ListOrgs validateOrganizationAPI this fuel w) w
              (fun r => exists o, r = sdk.ReqListMyOrgs o) /\
    onlySends (ListOrgTeams this orgName fuel w) w
              (fun r => exists o, r = sdk.ReqListOrgTeams orgName o) /\
    onlySends (ListOrgRepos validateRepositoryAPI this orgName fuel w) w
              (fun r => exists o, r = sdk.ReqListOrgRepos orgName o) /\
    onlySends (ListUserRepos validateRepositoryAPI this username fuel w) w
              (fun r => exists o, r = sdk.ReqListUserRepos username o) /\
    onlySends (ListKeys validateDeployKeyAPI this owner repo fuel w) w
              (fun r => exists o, r = sdk.ReqListDeployKeys owner repo o).
Proof.
  intros vO vR vK this orgName username owner repo fuel w.
  split; [| split; [| split; [| split]]]; intros r w' H.
  - unfold ListOrgs in H.
    own_requests H (sdk.ListMyOrgs (c this)) sdk.ReqListMyOrgs.
    destruct e0; [| destruct (rangeValidate vO (apiObjs fr0))];
      injection H as _ <-; exact Hrun.
  - unfold ListOrgTeams in H.
    own_requests H (sdk.ListOrgTeams (c this) orgName) (sdk.ReqListOrgTeams orgName).
    destruct e0; injection H as _ <-; exact Hrun.
  - unfold ListOrgRepos in H.
    own_requests H (sdk.ListOrgRepos (c this) orgName) (sdk.ReqListOrgRepos orgName).
    destruct e0; injection H as _ <-; exact Hrun.
  - unfold ListUserRepos in H.
    own_requests H (sdk.ListUserRepos (c this) username) (sdk.ReqListUserRepos username).
    destruct e0; injection H as _ <-; exact Hrun.
  - unfold ListKeys in H.
    own_requests H (sdk.ListDeployKeys (c this) owner repo)
                 (sdk.ReqListDeployKeys owner repo).
    destruct e0; [| destruct (rangeValidate vK (apiObjs fr0))];
      injection H as _ <-; exact Hrun.
Qed.

Lemma list_accessors_send_only_their_list_request_witness :
  ListKeys specValidateDeployKeyAPI Fake.badLister "o" "r" 5 []
  = Some ((None, Some (ValidationError "Title")),
          [sdk.ReqListDeployKeys "o" "r" (cursor 1 0);
           sdk.ReqListDeployKeys "o" "r" (cursor 2 0)]) /\
  exists reqs,
    [sdk.ReqListDeployKeys "o" "r" (cursor 1 0); sdk.ReqListDeployKeys "o" "r" (cursor 2 0)]
    = [] ++ reqs /\ reqs <> [] /\
    Forall (fun r => exists o, r = sdk.ReqListDeployKeys "o" "r" o) reqs.
Proof.
  assert (Hrun : ListKeys specValidateDeployKeyAPI Fake.badLister "o" "r" 5 []
                 = Some ((None, Some (ValidationError "Title")),
                         [sdk.ReqListDeployKeys "o" "r" (cursor 1 0);
                          sdk.ReqListDeployKeys "o" "r" (cursor 2 0)]))
    by reflexivity.
  split; [exact Hrun |].
  exact (proj2 (proj2 (proj2 (proj2
           (list_accessors_send_only_their_list_request
              specValidateOrganizationAPI specValidateRepositoryAPI
              specValidateDeployKeyAPI Fake.badLister "o" "u" "o" "r" 5 []))))
           _ _ Hrun).
Defined.

(** ** Transport errors behind empty pages *)

Lemma allPages_loop_no_error_surfaces {A}
      (fetch : sdk.ListOptions -> sdk.Reply (slice A))
      (req : sdk.ListOptions -> sdk.Request) (fuel : nat) :
  failuresCarryNoItems fetch ->
  forall (fr : Frame A) (e : option error) (fr' : Frame A),
    allPages_loop fuel (pageFn fetch req) fr = Some (e, fr') -> e = None.
Proof.
  intros Hfail. induction fuel as [| fuel IH]; intros fr e fr' H; [discriminate H |].
  cbn [allPages_loop] in H. unfold pageFn in H.
  destruct (fetch (opts fr)) as [[pageObjs resp] listErr] eqn:Hf.
  destruct (0 <? len pageObjs)%nat eqn:E.
  - destruct listErr as [e1 |].
    + apply Hfail in Hf. rewrite Hf in E. discriminate E.
    + destruct resp as [r |]; [eapply IH; exact H |].
      injection H as <- _. reflexivity.
  - injection H as <- _. reflexivity.
Qed.

Lemma rangeValidate_Some_from {A} (validate : ptr A -> option error) :
  forall (objs : list A) (e : error),
    rangeValidate validate objs = Some e ->
    exists x, In x objs /\ validate (Some x) = Some e.
Proof.
  induction objs as [| x rest IH]; intros e H; [discriminate H |].
  simpl in H. destruct (validate (Some x)) as [e1 |] eqn:Hx.
  - injection H as ->. exists x. split; [left; reflexivity | assumption].
  - destruct (IH e H) as (y & Hy & Hv). exists y. split; [right |]; assumption.
Qed.

(** X13. Where the SDK answers every failed list request without items,
    no error of the transport ever comes out of a list accessor: the page
    callback reports an error only beside items.  [ListOrgTeams] then
    returns no error at all, and an error that [ListOrgs] returns is the
    verdict of the validator on one of the organizations it has
    accumulated (the list the same call returns when nothing is
    validated). *)
Theorem list_accessors_surface_no_transport_error :
  forall (validateOrganizationAPI : ptr sdk.Organization -> option error)
         (this : giteaClientImpl) (orgName : string) (fuel : nat) (w : World),
    failuresCarryNoItems (sdk.ListMyOrgs (c this)) ->
    failuresCarryNoItems (sdk.ListOrgTeams (c this) orgName) ->
    (forall s err w',
        ListOrgTeams this orgName fuel w = Some ((s, err), w') -> err = None) /\
    (forall s e w',
        ListOrgs validateOrganizationAPI this fuel w = Some ((s, Some e), w') ->
        exists objs x,
          ListOrgs noValidation this fuel w = Some ((Some objs, None), w') /\
          In x objs /\
          validateOrganizationAPI (Some x) = Some e).
Proof.
  intros vO this orgName fuel w Horgs Hteams. split.
  - intros s err w' H. unfold ListOrgTeams in H.
    change (allPages fuel _ (newFrame w))
      with (allPages fuel (pageFn (sdk.ListOrgTeams (c this) orgName)
                             (sdk.ReqListOrgTeams orgName)) (newFrame w)) in H.
    destruct (allPages fuel _ (newFrame w)) as [[e0 fr0] |] eqn:Hrun;
      [| discriminate H].
    unfold allPages in Hrun.
    apply (@allPages_loop_no_error_surfaces _ _ _ _ Hteams) in Hrun. subst e0.
    injection H as _ <- _. reflexivity.
  - intros s e w' H. unfold ListOrgs in *.
    change (allPages fuel _ (newFrame w))
      with (allPages fuel (pageFn (sdk.ListMyOrgs (c this)) sdk.ReqListMyOrgs)
              (newFrame w)) in *.
    destruct (allPages fuel _ (newFrame w)) as [[e0 fr0] |] eqn:Hrun;
      [| discriminate H].
    unfold allPages in Hrun.
    apply (@allPages_loop_no_error_surfaces _ _ _ _ Horgs) in Hrun. subst e0.
    destruct (rangeValidate vO (apiObjs fr0)) as [e1 |] eqn:Hr; [| discriminate H].
    injection H as _ <- <-.
    destruct (rangeValidate_Some_from vO _ Hr) as (x & Hin & Hx).
    exists (apiObjs fr0), x.
    rewrite rangeValidate_noValidation. repeat split; assumption.
Qed.

Lemma list_accessors_surface_no_transport_error_witness :
  failuresCarryNoItems (sdk.ListMyOrgs (c (Fake.impl Fake.flaky false))) /\
  failuresCarryNoItems (sdk.ListOrgTeams (c (Fake.impl Fake.flaky false)) "org") /\
  (ListOrgTeams (Fake.impl Fake.flaky false) "org" 3 []
   = Some ((Some [Fake.team 7 "A"], None),
           [sdk.ReqListOrgTeams "org" (cursor 1 0); sdk.ReqListOrgTeams "org" (cursor 2 0)])
   /\
   forall s err w',
     ListOrgTeams (Fake.impl Fake.flaky false) "org" 3 [] = Some ((s, err), w') ->
     err = None) /\
  (ListOrgs specValidateOrganizationAPI (Fake.impl Fake.flaky false) 3 []
   = Some ((None, Some (ValidationError "UserName")),
           [sdk.ReqListMyOrgs (cursor 1 0); sdk.ReqListMyOrgs (cursor 2 0)])
   /\
   exists objs x,
     ListOrgs noValidation (Fake.impl Fake.flaky false) 3 []
     = Some ((Some objs, None),
             [sdk.ReqListMyOrgs (cursor 1 0); sdk.ReqListMyOrgs (cursor 2 0)]) /\
     In x objs /\
     specValidateOrganizationAPI (Some x) = Some (ValidationError "UserName")).
Proof.
  assert (Ho : failuresCarryNoItems (sdk.ListMyOrgs (c (Fake.impl Fake.flaky false)))).
  { intros o s resp e H. cbn in H.
    destruct (sdk.Page o =? 1)%Z; [discriminate H |].
    injection H as <- _ _. reflexivity. }
  assert (Ht : failuresCarryNoItems
                 (sdk.ListOrgTeams (c (Fake.impl Fake.flaky false)) "org")).
  { intros o s resp e H. cbn in H.
    destruct (sdk.Page o =? 1)%Z; [discriminate H |].
    injection H as <- _ _. reflexivity. }
  destruct (list_accessors_surface_no_transport_error
              specValidateOrganizationAPI (Fake.impl Fake.flaky false) "org" 3 []
              Ho Ht) as [Hteams Horgs].
  split; [exact Ho |]. split; [exact Ht |]. split.
  - split; [reflexivity | exact Hteams].
  - assert (Hrun : ListOrgs specValidateOrganizationAPI (Fake.impl Fake.flaky false) 3 []
                   = Some ((None, Some (ValidationError "UserName")),
                           [sdk.ReqListMyOrgs (cursor 1 0);
                            sdk.ReqListMyOrgs (cursor 2 0)])) by reflexivity.
    split; [exact Hrun |]. exact (Horgs _ _ _ Hrun).
Defined.
